(** * Confocal-LUV: data reduction of confocal intensity traces

    A shallow embedding of the data-reduction logic of the scripts

    - [Raw_Data_Threshold_xlsx_Export.py]  ([get_unique_filename],
      [load_files], [count_events_above_threshold]),
    - [Raw_Data_Plot.py] / [Raw_Data_Histogram_Plot.py]  ([load_files_A],
      [get_next_filename]),
    - [Raw_Data_Plot_Hill_Fit.py]  (the positivity filter and
      [hill_equation]),

    together with the properties stated about them.

    Conventions.  A Python exception is a value of type [exn]; text sent to
    [print] is collected in a list of lines; the file system is a finite map
    from paths to file contents.  Array elements are IEEE-style values (a
    rational, an infinity or NaN) compared the way NumPy compares them; the
    Hill curve is stated over the real numbers. *)

From Stdlib Require Import QArith Qround ZArith List Lia String Ascii.
From Stdlib Require Import DecimalString DecimalNat.
From Stdlib Require Import Reals Lra.
From Stdlib Require Lqa.
From stdpp Require Import gmap strings.

(** ** Numeric values held by a NumPy array or a pandas Series *)

Module Float.

(** The values of a floating-point cell: finite numbers are kept exact
    (every binary float is a rational), the three special values are
    explicit because [float()] produces them from ["inf"] and ["nan"]. *)
Inductive float : Type :=
| NaN
| NegInf
| Finite (q : Q)
| PosInf.

(** [a > b]: false as soon as one side is NaN. *)
Definition gt (a b : float) : bool :=
  match a, b with
  | NaN, _ | _, NaN => false
  | NegInf, _ => false
  | Finite _, NegInf => true
  | Finite p, Finite q => negb (Qle_bool p q)
  | Finite _, PosInf => false
  | PosInf, PosInf => false
  | PosInf, _ => true
  end.

(** [a <= b]: false as soon as one side is NaN. *)
Definition le (a b : float) : bool :=
  match a, b with
  | NaN, _ | _, NaN => false
  | NegInf, _ => true
  | Finite _, NegInf => false
  | Finite p, Finite q => Qle_bool p q
  | Finite _, PosInf => true
  | PosInf, PosInf => true
  | PosInf, _ => false
  end.

Definition of_Z (z : Z) : float := Finite (inject_Z z).

Definition zero : float := of_Z 0.

End Float.

(** ** Conversion to the binary floating-point formats *)

Module Float32.
Import Float.

(** The integer nearest to [q], ties going to the even one. *)
Definition round_half_even (q : Q) : Z :=
  let f := Qfloor q in
  match (q - inject_Z f ?= 1 # 2)%Q with
  | Lt => f
  | Gt => (f + 1)%Z
  | Eq => if Z.even f then f else (f + 1)%Z
  end.

Section Format.

(** A binary format: [prec] significand bits, [binades] exponents (the
    subnormal one included) and [scale], the inverse of its smallest
    positive number, so that the scaled values of the format are the
    integers [m * 2 ^ k] with [m < 2 ^ prec] and [k] below [binades]. *)
Variable prec : Z.
Variable binades : nat.
Variable scale : Z.

(** The exponent at which a non-negative scaled number is rounded: the
    first [k] from the given one with [s < 2 ^ (k + prec)]. *)
Fixpoint binade (fuel : nat) (k : Z) (s : Q) : option Z :=
  match fuel with
  | O => None
  | S fuel' =>
      match (s ?= inject_Z (2 ^ (k + prec)))%Q with
      | Lt => Some k
      | _ => binade fuel' (k + 1)%Z s
      end
  end.

(** Round to nearest, ties to even, of a non-negative scaled number;
    [None] where the result is beyond the largest number of the format. *)
Definition round_scaled (s : Q) : option Z :=
  match binade binades 0 s with
  | None => None
  | Some k =>
      let r := (round_half_even (s / inject_Z (2 ^ k)) * 2 ^ k)%Z in
      if (r <? 2 ^ (prec + Z.of_nat binades - 1))%Z then Some r else None
  end.

(** The conversion of a value to the format: NaN and the infinities are
    kept, a finite number is rounded to nearest (ties to even) and
    becomes an infinity when it is out of range. *)
Definition round_to (x : float) : float :=
  match x with
  | Finite q =>
      if Qle_bool 0 q then
        match round_scaled (q * inject_Z scale) with
        | Some r => Finite (Qred (inject_Z r / inject_Z scale))
        | None => PosInf
        end
      else
        match round_scaled (- q * inject_Z scale) with
        | Some r => Finite (Qred (- (inject_Z r / inject_Z scale)))
        | None => NegInf
        end
  | other => other
  end.

End Format.

(** binary32: 24 bits, numbers from [2 ^ -149] to below [2 ^ 128]. *)
Definition to_float32 : float -> float := round_to 24 254 (2 ^ 149).

(** binary64, the format of a Python [float]: 53 bits, numbers from
    [2 ^ -1074] to below [2 ^ 1024]. *)
Definition to_float64 : float -> float := round_to 53 2046 (2 ^ 1074).

(** The same value: the comparison [==] extended to NaN. *)
Definition same (a b : float) : bool :=
  match a, b with
  | NaN, NaN | NegInf, NegInf | PosInf, PosInf => true
  | Finite p, Finite q => Qeq_bool p q
  | _, _ => false
  end.

(** A value a float32 array can hold; the value of a Python number that
    NumPy takes as it is (a [float], or an [int] that a [float] holds
    exactly). *)
Definition is_float32 (x : float) : bool := same (to_float32 x) x.
Definition is_float64 (x : float) : bool := same (to_float64 x) x.

End Float32.

(** ** Raw_Data_Threshold_xlsx_Export.py: counting threshold events *)

Module Threshold.
Import Float Float32.

(** [channelA_arr > threshold] on a float32 array: NumPy converts the
    Python scalar to the type of the array, then compares element by
    element; the result is a boolean array of the same length. *)
Definition greater (channelA_arr : list float) (threshold : float) : list bool :=
  List.map (fun x => gt x (to_float32 threshold)) channelA_arr.

(** [np.sum] of a boolean array: the flags are added up as integers,
    left to right, from 0. *)
Definition np_sum (mask : list bool) : Z :=
  fold_left (fun acc b => (acc + Z.b2z b)%Z) mask 0%Z.

(** [count_events_above_threshold(channelA_arr, threshold)]. *)
Definition count_events_above_threshold
    (channelA_arr : list float) (threshold : float) : Z :=
  np_sum (greater channelA_arr threshold).

(** The number of elements strictly greater than the threshold, by
    direct recursion on the array: the specification side of the count. *)
Fixpoint strictly_greater_count (a : list float) (t : float) : nat :=
  match a with
  | [] => O
  | x :: rest =>
      if gt x t then S (strictly_greater_count rest t)
      else strictly_greater_count rest t
  end.

(** The thresholds swept by the script. *)
Definition thresholds : list float :=
  List.map of_Z [20; 30; 40; 50; 60; 70; 80; 90; 100; 150; 160; 170; 180; 190; 200]%Z.

End Threshold.

(** ** Python values shared by the scripts: exceptions, text, the file system *)

Module Py.

Inductive exn : Type :=
| FileNotFoundError (path : string)
| IsADirectoryError (path : string)
| IndexError
| IndexingError
| ValueError (text : string)
| OSError (text : string).

(** A computation that may raise. *)
Definition result (A : Type) : Type := (exn + A)%type.

Definition bind {A B : Type} (m : result A) (k : A -> result B) : result B :=
  match m with
  | inl e => inl e
  | inr a => k a
  end.

(** [str(n)] of a non-negative integer: its decimal digits. *)
Definition str (n : nat) : string := NilEmpty.string_of_uint (Nat.to_uint n).

(** The format [{n:02d}]: decimal digits, padded on the left with zeros
    to a width of two. *)
Definition fmt_02d (n : nat) : string :=
  let s := str n in
  if (String.length s <? 2)%nat then "0" +:+ s else s.

Definition sep : ascii := "/"%char.

Definition starts_with_sep (s : string) : bool :=
  match s with
  | String c _ => Ascii.eqb c sep
  | EmptyString => false
  end.

Fixpoint ends_with_sep (s : string) : bool :=
  match s with
  | EmptyString => false
  | String c EmptyString => Ascii.eqb c sep
  | String _ rest => ends_with_sep rest
  end.

(** [os.path.join(a, b)] for two components, after [posixpath.join]: an
    absolute [b] replaces [a]; otherwise [b] is appended, with a
    separator unless [a] is empty or already ends with one. *)
Definition os_path_join (a b : string) : string :=
  if starts_with_sep b then b
  else if (String.length a =? 0)%nat || ends_with_sep a then a +:+ b
  else a +:+ String sep b.

(** A row as [csv.reader(..., delimiter='\t')] yields it: its fields. *)
Definition row : Type := list string.

Inductive node : Type :=
| Dir
| File (rows : list row).

(** The file system: what exists at each path. *)
Abbreviation filesystem := (gmap string node).

Definition os_path_exists (fs : filesystem) (p : string) : bool :=
  match fs !! p with
  | Some _ => true
  | None => false
  end.

Definition os_path_isfile (fs : filesystem) (p : string) : bool :=
  match fs !! p with
  | Some (File _) => true
  | _ => false
  end.

(** [open(p)] followed by [csv.reader]: the rows of the file. *)
Definition open (fs : filesystem) (p : string) : result (list row) :=
  match fs !! p with
  | Some (File rows) => inr rows
  | Some Dir => inl (IsADirectoryError p)
  | None => inl (FileNotFoundError p)
  end.

(** The text before and after the last separator of a path that has one. *)
Fixpoint split_last_sep (p : string) : option (string * string) :=
  match p with
  | EmptyString => None
  | String c rest =>
      match split_last_sep rest with
      | Some (d, f) => Some (String c d, f)
      | None => if Ascii.eqb c sep then Some (EmptyString, rest) else None
      end
  end.

(** A path without its trailing separators. *)
Fixpoint rstrip_sep (p : string) : string :=
  match p with
  | EmptyString => EmptyString
  | String c rest =>
      match rstrip_sep rest with
      | EmptyString => if Ascii.eqb c sep then EmptyString else String c EmptyString
      | rest' => String c rest'
      end
  end.

(** The directory in which a file at [p] is created, after
    [pathlib.Path(p).parent], the path being taken as it is written;
    [None] stands for the current directory and for the root, which are
    always there. *)
Definition parent (p : string) : option string :=
  match split_last_sep (rstrip_sep p) with
  | None => None
  | Some (d, _) =>
      match rstrip_sep d with
      | EmptyString => None
      | d' => Some d'
      end
  end.

Definition parent_is_dir (fs : filesystem) (p : string) : bool :=
  match parent p with
  | None => true
  | Some d =>
      match fs !! d with
      | Some Dir => true
      | _ => false
      end
  end.

(** The file system after a call that may raise: unchanged when it does. *)
Definition fs_after (fs : filesystem) (r : result filesystem) : filesystem :=
  match r with
  | inr fs' => fs'
  | inl _ => fs
  end.

(** [row[k]]. *)
Definition getitem (r : row) (k : nat) : result string :=
  match r !! k with
  | Some s => inr s
  | None => inl IndexError
  end.

End Py.

Notation "'try!' x ':=' m 'in' k" := (Py.bind m (fun x => k))
  (at level 10, x name, m at level 100, k at level 200, only parsing).

(** ** Versioned output names *)

Module Naming.
Import Py.

(** The [while os.path.exists(file_path)] loop of [get_unique_filename],
    with the loop variables [version] and [file_path] as arguments; the
    fuel bounds the number of tests of the loop condition. *)
Fixpoint unique_loop (fuel : nat) (fs : filesystem)
    (path base_filename extension : string)
    (version : nat) (file_path : string) : option string :=
  match fuel with
  | O => None
  | S fuel' =>
      if os_path_exists fs file_path then
        let version := S version in
        let filename := base_filename +:+ "_v" +:+ str version +:+ "." +:+ extension in
        let file_path := os_path_join path filename in
        unique_loop fuel' fs path base_filename extension version file_path
      else Some file_path
  end.

(** [get_unique_filename(path, base_filename, extension)]. *)
Definition get_unique_filename (fuel : nat) (fs : filesystem)
    (path base_filename extension : string) : option string :=
  let version := 1%nat in
  let filename := base_filename +:+ "." +:+ extension in
  let file_path := os_path_join path filename in
  unique_loop fuel fs path base_filename extension version file_path.

(** [df.to_excel(excel_output_path)]: pandas raises [OSError] when the
    directory of the path does not exist, and a directory cannot be
    opened for writing; otherwise the file at that path becomes the
    exported sheet. *)
Definition to_excel (fs : filesystem) (excel_output_path : string)
    (sheet : list row) : result filesystem :=
  if negb (parent_is_dir fs excel_output_path) then
    inl (OSError ("Cannot save file into a non-existent directory: '"
                  +:+ default "." (parent excel_output_path) +:+ "'"))
  else
    match fs !! excel_output_path with
    | Some Dir => inl (IsADirectoryError excel_output_path)
    | _ => inr (<[excel_output_path := File sheet]> fs)
    end.

(** The loop of [get_next_filename] in Raw_Data_Plot.py. *)
Fixpoint next_loop (fuel : nat) (fs : filesystem) (base_filename : string)
    (version : nat) : option string :=
  match fuel with
  | O => None
  | S fuel' =>
      if os_path_exists fs (base_filename +:+ "_v" +:+ str version +:+ ".svg") then
        next_loop fuel' fs base_filename (S version)
      else Some (base_filename +:+ "_v" +:+ str version +:+ ".svg")
  end.

(** [get_next_filename(base_filename)]. *)
Definition get_next_filename (fuel : nat) (fs : filesystem)
    (base_filename : string) : option string :=
  next_loop fuel fs base_filename 1.

(** The names the two searches try, by version number. *)
Definition unique_candidate (path base_filename extension : string) (version : nat) : string :=
  if (version =? 1)%nat
  then os_path_join path (base_filename +:+ "." +:+ extension)
  else os_path_join path (base_filename +:+ "_v" +:+ str version +:+ "." +:+ extension).

Definition next_candidate (base_filename : string) (version : nat) : string :=
  base_filename +:+ "_v" +:+ str version +:+ ".svg".

End Naming.

(** ** Loading the per-run data files *)

Module Loader.
Import Float Py.

Section Loaders.

(** [float(s)] on a field of a data file; [None] where Python raises
    [ValueError]. *)
Variable float_of_string : string -> option float.

(** The conversion of one value to the array's [dtype=np.float32]. *)
Variable np_float32 : float -> float.

Variable fs : filesystem.

(** The script constant [path_A]. *)
Variable path_A : string.

Definition py_float (s : string) : result float :=
  match float_of_string s with
  | Some v => inr v
  | None => inl (ValueError s)
  end.

(** [np.asarray(data, dtype=np.float32)]. *)
Definition np_asarray (data : list float) : list float :=
  List.map np_float32 data.

(** *** Raw_Data_Threshold_xlsx_Export.py *)

(** [os.path.join(path_A, f"{file_stem}_{i+1:02d}" if i > 0 else file_stem)]. *)
Definition data_filename (file_stem : string) (i : nat) : string :=
  os_path_join path_A
    (if (0 <? i)%nat then file_stem +:+ "_" +:+ fmt_02d (i + 1) else file_stem).

(** The [for row in csvReader] loop of [load_files]. *)
Fixpoint read_rows (rows : list row) (channelA_data channelB_data : list float)
    : result (list float * list float) :=
  match rows with
  | [] => inr (channelA_data, channelB_data)
  | row :: rest =>
      try! s0 := getitem row 0 in
      try! a := py_float s0 in
      try! s1 := getitem row 1 in
      try! b := py_float s1 in
      read_rows rest (channelA_data ++ [a]) (channelB_data ++ [b])
  end.

(** The [for i in range(number_of_files)] loop of [load_files]; [out]
    collects the printed lines. *)
Fixpoint load_files_loop (file_stem : string) (range : list nat)
    (channelA_data channelB_data : list float) (out : list string)
    : list string * result (list float * list float) :=
  match range with
  | [] => (out, inr (channelA_data, channelB_data))
  | i :: range' =>
      let filename := data_filename file_stem i in
      if negb (os_path_isfile fs filename) then
        load_files_loop file_stem range' channelA_data channelB_data
          (out ++ ["File does not exist: " +:+ filename])
      else
        match (try! rows := open fs filename in
               read_rows rows channelA_data channelB_data) with
        | inl e => (out, inl e)
        | inr (channelA_data', channelB_data') =>
            load_files_loop file_stem range' channelA_data' channelB_data' out
        end
  end.

(** [load_files(file_stem)], with the script constant
    [number_of_files] as an argument. *)
Definition load_files (number_of_files : nat) (file_stem : string)
    : list string * result (list float * list float) :=
  match load_files_loop file_stem (seq 0 number_of_files) [] [] [] with
  | (out, inl e) => (out, inl e)
  | (out, inr (channelA_data, channelB_data)) =>
      (out, inr (np_asarray channelA_data, np_asarray channelB_data))
  end.

(** *** Raw_Data_Plot.py and Raw_Data_Histogram_Plot.py *)

(** The script constant [file_stem_A]. *)
Variable file_stem_A : string.

Definition data_filename_A (i : nat) : string :=
  if (i =? 0)%nat then os_path_join path_A file_stem_A
  else os_path_join path_A (file_stem_A +:+ "_" +:+ fmt_02d (i + 1)).

(** The [for row in csvReader] loop of [load_files_A]; [a] is the row
    counter. *)
Fixpoint read_rows_A (rows : list row) (channelA_A : list float) (a : nat)
    : result (list float * nat) :=
  match rows with
  | [] => inr (channelA_A, a)
  | row :: rest =>
      try! s0 := getitem row 0 in
      try! v := py_float s0 in
      read_rows_A rest (channelA_A ++ [v]) (a + 1)
  end.

Fixpoint load_files_A_loop (range : list nat) (channelA_A : list float)
    (out : list string) : list string * result (list float) :=
  match range with
  | [] => (out, inr channelA_A)
  | i :: range' =>
      let filename := data_filename_A i in
      match (try! rows := open fs filename in read_rows_A rows channelA_A 0) with
      | inl e => (out, inl e)
      | inr (channelA_A', a) =>
          load_files_A_loop range' channelA_A'
            (out ++ ["Loaded " +:+ filename +:+ ", which contains " +:+ str a +:+ " rows."])
      end
  end.

(** [load_files_A(number_of_files)]. *)
Definition load_files_A (number_of_files : nat) : list string * result (list float) :=
  match load_files_A_loop (seq 0 number_of_files) [] [] with
  | (out, inl e) => (out, inl e)
  | (out, inr channelA_A) => (out, inr (np_asarray channelA_A))
  end.

(** *** What a batch holds *)

(** The value of field [k] of a row, where the row has such a field
    and [float()] accepts it. *)
Definition field_value (k : nat) (r : row) : option float :=
  match r !! k with
  | Some s => float_of_string s
  | None => None
  end.

(** The rows of the regular file at [p]; none if there is no such file. *)
Definition file_rows (p : string) : list row :=
  match fs !! p with
  | Some (File rows) => rows
  | _ => []
  end.

(** The rows of a batch in file-then-row order, for each loader's
    naming scheme. *)
Definition batch_rows (number_of_files : nat) (file_stem : string) : list row :=
  flat_map (fun i => file_rows (data_filename file_stem i)) (seq 0 number_of_files).

Definition batch_rows_A (number_of_files : nat) : list row :=
  flat_map (fun i => file_rows (data_filename_A i)) (seq 0 number_of_files).

(** One line per file of the batch that is not a regular file, in
    batch order. *)
Definition missing_report (range : list nat) (file_stem : string) : list string :=
  List.map (fun i => "File does not exist: " +:+ data_filename file_stem i)
    (List.filter (fun i => negb (os_path_isfile fs (data_filename file_stem i))) range).

(** Array [arr] holds field [k] of the rows, one element per row and in
    the same order, each converted to the array's type. *)
Definition is_column (k : nat) (rows : list row) (arr : list float) : Prop :=
  List.length arr = List.length rows
  /\ forall (j : nat) (r : row), rows !! j = Some r ->
       exists v : float, field_value k r = Some v /\ arr !! j = Some (np_float32 v).

End Loaders.

(** A reader for unsigned integer literals such as ["42"], on which it
    agrees with [float()]; it runs the loaders on concrete files. *)
Definition float_of_digits (s : string) : option float :=
  match NilEmpty.uint_of_string s with
  | Some d => if (String.length s =? 0)%nat then None
              else Some (of_Z (Z.of_nat (Nat.of_uint d)))
  | None => None
  end.

(** A directory with the first file of run ["run"] and no second file;
    the file has one row of two fields. *)
Definition two_channel_fs : filesystem :=
  {[ "data/run" := File [["7"; "8"]] ]}.

(** The same directory with a single-column file. *)
Definition one_channel_fs : filesystem :=
  {[ "data/run" := File [["7"]] ]}.

End Loader.

(** ** Raw_Data_Plot_Hill_Fit.py: the positivity filter *)

Module HillData.
Import Float Py.

(** One row of the spreadsheet read by [pd.read_excel]. *)
Record record : Type := { Conc : float; Mean : float; SD : float }.

(** The data frame: its rows, labelled 0, 1, 2, ... by the default index. *)
Definition dataframe : Type := list record.

(** A pandas Series: the values with their index labels. *)
Definition series (A : Type) : Type := list (nat * A).

Fixpoint label_from (k : nat) (rows : list record) : list (nat * record) :=
  match rows with
  | [] => []
  | r :: rest => (k, r) :: label_from (S k) rest
  end.

Definition labelled (df : dataframe) : list (nat * record) :=
  label_from 0 df.

(** [df['Conc']], [df['Mean']], [df['SD']]. *)
Definition column (field : record -> float) (df : dataframe) : series float :=
  List.map (fun kr => (fst kr, field (snd kr))) (labelled df).

(** [s > c]: element-wise, same index. *)
Definition series_gt (s : series float) (c : float) : series bool :=
  List.map (fun kv => (fst kv, gt (snd kv) c)) s.

Fixpoint label_lookup {A : Type} (s : series A) (k : nat) : option A :=
  match s with
  | [] => None
  | (k', v) :: rest => if (k' =? k)%nat then Some v else label_lookup rest k
  end.

(** [s[mask]] for a boolean Series [mask]: the mask is aligned with [s]
    by label, a label of [s] missing from the mask raises, and the
    entries whose flag is set are kept, in order, with their labels. *)
Fixpoint boolean_getitem (s : series float) (mask : series bool)
    : result (series float) :=
  match s with
  | [] => inr []
  | (k, v) :: rest =>
      match label_lookup mask k with
      | None => inl IndexingError
      | Some flag =>
          try! kept := boolean_getitem rest mask in
          inr (if flag then (k, v) :: kept else kept)
      end
  end.

(** Lines 27-38 of the script: the three columns, the mask
    [valid_indices = x > 0], and the three filtered Series. *)
Definition positivity_filter (df : dataframe)
    : result (series float * series float * series float) :=
  let x := column Conc df in
  let y := column Mean df in
  let y_sd := column SD df in
  let valid_indices := series_gt x zero in
  try! x := boolean_getitem x valid_indices in
  try! y := boolean_getitem y valid_indices in
  try! y_sd := boolean_getitem y_sd valid_indices in
  inr (x, y, y_sd).

(** The rows a filter on positive [Conc] is meant to keep. *)
Definition positive_rows (df : dataframe) : list (nat * record) :=
  List.filter (fun kr => gt (Conc (snd kr)) zero) (labelled df).

End HillData.

(** ** Raw_Data_Plot_Hill_Fit.py: the Hill curve, over the reals *)

Module Hill.

Local Open Scope R_scope.

(** [x ** n] on floats, with exact real arithmetic for the finite
    results and [None] where there is no finite real result (NumPy gives
    an infinity or NaN there, plain Python floats raise or leave the
    reals): any base to the power 0 is 1; a positive base uses the real
    power; 0 to a positive power is 0 and to a negative power is
    infinite; a negative base has a real power only at an integer
    exponent. *)
Definition power (x n : R) : option R :=
  if Req_EM_T n 0 then Some 1
  else if Rlt_dec 0 x then Some (Rpower x n)
  else if Req_EM_T x 0 then (if Rlt_dec 0 n then Some 0 else None)
  else if Req_EM_T (IZR (Int_part n)) n then Some (powerRZ x (Int_part n))
  else None.

(** [a / b] on floats: [None] where the divisor is 0 (NumPy gives an
    infinity or NaN there, plain Python floats raise). *)
Definition divide (a b : R) : option R :=
  if Req_EM_T b 0 then None else Some (a / b).

(** [hill_equation(x, Vmax, Kd, n)]:
    [(Vmax * x**n) / (Kd**n + x**n)]. *)
Definition hill_equation (x Vmax Kd n : R) : option R :=
  match power x n, power Kd n with
  | Some xn, Some kn => divide (Vmax * xn) (kn + xn)
  | _, _ => None
  end.

End Hill.

(** ** What stops a loader *)

Module LoaderErrors.
Import Float Py Loader.

(** The exception of reading field [k] of a row that has no numeric field
    there: [row[k]] raises if the row is too short, otherwise [float()]
    raises on the text found. *)
Definition field_error (k : nat) (r : row) : exn :=
  match r !! k with
  | None => IndexError
  | Some s => ValueError s
  end.

(** The exception of the body of the row loop of [load_files] on a row
    that lacks one of its two numeric fields: the first field is read
    first. *)
Definition row_error (float_of_string : string -> option float) (r : row) : exn :=
  match field_value float_of_string 0 r with
  | None => field_error 0 r
  | Some _ => field_error 1 r
  end.

(** The line [load_files_A] prints after reading file [i] of the batch. *)
Definition loaded_line (fs : filesystem) (path_A file_stem_A : string) (i : nat) : string :=
  "Loaded " +:+ data_filename_A path_A file_stem_A i +:+ ", which contains "
  +:+ str (List.length (file_rows fs (data_filename_A path_A file_stem_A i)))
  +:+ " rows.".

(** A file whose second row is text, and a two-column file whose second
    row lost its second field. *)
Definition text_row_fs : filesystem :=
  {[ "data/run" := File [["7"]; ["x"]; ["9"]] ]}.

Definition short_row_fs : filesystem :=
  {[ "data/run" := File [["7"; "8"]; ["9"]] ]}.

End LoaderErrors.

(** ** Raw_Data_Plot.py: the saved figure *)

Module PlotScript.
Import Float Py Naming.



End PlotScript.

(** ** Raw_Data_Plot_Hill_Fit.py: the range of the fitted curve *)

Module HillScript.
Import Float Py HillData.

(** [a < b]. *)
Definition lt (a b : float) : bool := gt b a.

(** The builtin [min]: the first item is the candidate, and a later item
    replaces the candidate when it compares less than it. *)
Fixpoint min_from (best : float) (items : list float) : float :=
  match items with
  | [] => best
  | v :: rest => min_from (if lt v best then v else best) rest
  end.

Definition py_min (items : list float) : result float :=
  match items with
  | [] => inl (ValueError "min() arg is an empty sequence")
  | v :: rest => inr (min_from v rest)
  end.

(** The builtin [max], with [>] in place of [<]. *)
Fixpoint max_from (best : float) (items : list float) : float :=
  match items with
  | [] => best
  | v :: rest => max_from (if gt v best then v else best) rest
  end.

Definition py_max (items : list float) : result float :=
  match items with
  | [] => inl (ValueError "max() arg is an empty sequence")
  | v :: rest => inr (max_from v rest)
  end.

(** Iterating over a Series yields its values. *)
Definition values (s : series float) : list float := List.map snd s.

(** Lines 27-56 as far as the end points of [x_smooth]: the filter, then
    [min(x)] and [max(x)], whose decimal logarithms bound the
    [np.logspace] grid. *)
Definition smooth_range (df : dataframe) : result (float * float) :=
  try! xyz := positivity_filter df in
  let x := fst (fst xyz) in
  try! lo := py_min (values x) in
  try! hi := py_max (values x) in
  inr (lo, hi).

End HillScript.

(** ** Raw_Data_Histogram_Plot.py: what [plot_histogram] hands to the plot *)

Module Histogram.
Import Float Float32 Py.

Inductive error : Type :=
| Raised (e : exn)
| TypeError.

(** [a >= b]. *)
Definition ge (a b : float) : bool := le b a.

(** [a < b]. *)
Definition lt (a b : float) : bool := gt b a.

Definition isnan (a : float) : bool :=
  match a with
  | NaN => true
  | _ => false
  end.

Fixpoint take_flagged (data : list float) (mask : list bool) : list float :=
  match data, mask with
  | x :: data', flag :: mask' =>
      if flag then x :: take_flagged data' mask' else take_flagged data' mask'
  | _, _ => []
  end.

(** [data[mask]] for a boolean array [mask]: the flagged elements, in
    order; a mask of another length raises [IndexError]. *)
Definition np_getitem (data : list float) (mask : list bool) : result (list float) :=
  if (List.length data =? List.length mask)%nat then inr (take_flagged data mask)
  else inl IndexError.

(** Lines 71-74: the two threshold filters, each applied only when its
    threshold is not [None]; in [data >= bottom_threshold] and
    [data <= top_threshold] NumPy converts the Python scalar to the
    float32 type of the array before comparing. *)
Definition apply_thresholds (data : list float) (bottom_threshold top_threshold : option float)
    : result (list float) :=
  try! data := match bottom_threshold with
               | Some b => np_getitem data (List.map (fun x => ge x (to_float32 b)) data)
               | None => inr data
               end in
  match top_threshold with
  | Some t => np_getitem data (List.map (fun x => le x (to_float32 t)) data)
  | None => inr data
  end.

(** The [bins] argument: a number of bins or a list of bin edges. *)
Inductive bins_arg : Type :=
| BinCount (n : Z)
| BinEdges (edges : list Q).

Fixpoint set_last (y : list Q) (stop : Q) : list Q :=
  match y with
  | [] => []
  | [_] => [stop]
  | v :: rest => v :: set_last rest stop
  end.

(** [np.linspace(start, stop, num)] in exact arithmetic: [num] samples
    [start + i * step] with [step = (stop - start) / (num - 1)], the last
    one then set to [stop]; a negative [num] raises. *)
Definition np_linspace (start stop : Q) (num : Z) : result (list Q) :=
  if (num <? 0)%Z then inl (ValueError "Number of samples must be non-negative")
  else
    let div := (num - 1)%Z in
    let delta := (stop - start)%Q in
    let y := List.map (fun i => inject_Z (Z.of_nat i)) (seq 0 (Z.to_nat num)) in
    let y := if (0 <? div)%Z
             then List.map (fun v => (v * (delta / inject_Z div))%Q) y
             else List.map (fun v => (v * delta)%Q) y in
    let y := List.map (fun v => (v + start)%Q) y in
    inr (if (1 <? num)%Z then set_last y stop else y).

(** Lines 77-80: with an [xlim] the bins become [np.linspace(xmin, xmax,
    bins)], which needs [bins] to be an integer. *)
Definition choose_bins (xlim : option (Q * Q)) (bins : bins_arg) : error + bins_arg :=
  match xlim with
  | Some (xmin, xmax) =>
      match bins with
      | BinCount n =>
          match np_linspace xmin xmax n with
          | inl e => inl (Raised e)
          | inr edges => inr (BinEdges edges)
          end
      | BinEdges _ => inl TypeError
      end
  | None => inr bins
  end.

(** The [bin_color] argument and the [color] passed to [plt.hist]. *)
Inductive color_arg : Type :=
| ColorName (name : string)
| ColorList (names : list string)
| ColorOther.

Inductive hist_color : Type :=
| OneColor (name : string)
| ManyColors (names : list string).

(** Lines 86-93: the colour of the bars; [len(bins)] raises on an integer. *)
Definition choose_color (bin_color : color_arg) (bins : bins_arg) : error + hist_color :=
  match bin_color with
  | ColorName name => inr (OneColor name)
  | ColorList names =>
      match bins with
      | BinCount _ => inl TypeError
      | BinEdges edges =>
          if (List.length names =? List.length edges)%nat then inr (ManyColors names)
          else inr (OneColor "blue")
      end
  | ColorOther => inr (OneColor "blue")
  end.

(** [np.min] and [np.max] of an array: NaN if any element is NaN,
    [ValueError] on an empty array. *)
Fixpoint np_min_from (best : float) (items : list float) : float :=
  match items with
  | [] => best
  | v :: rest =>
      np_min_from (if isnan best || isnan v then NaN
                   else if lt v best then v else best) rest
  end.

Definition np_min (data : list float) : result float :=
  match data with
  | [] => inl (ValueError "zero-size array to reduction operation minimum which has no identity")
  | v :: rest => inr (np_min_from v rest)
  end.

Fixpoint np_max_from (best : float) (items : list float) : float :=
  match items with
  | [] => best
  | v :: rest =>
      np_max_from (if isnan best || isnan v then NaN
                   else if gt v best then v else best) rest
  end.

Definition np_max (data : list float) : result float :=
  match data with
  | [] => inl (ValueError "zero-size array to reduction operation maximum which has no identity")
  | v :: rest => inr (np_max_from v rest)
  end.

(** What [plot_histogram] has computed when it reaches [plt.show()]: the
    data, bins and colour given to [plt.hist], and the arguments of the
    [np.arange] call for the ticks when [xtick_distance] is set. *)
Record histogram : Type := {
  hist_data : list float;
  hist_bins : bins_arg;
  hist_color_used : hist_color;
  xticks_arange : option (float * float * Q)
}.

Section Plot.

(** [plt.hist(data, bins=bins, ..., color=color)], lines 86-93: the
    drawing call of Matplotlib, which raises when it refuses its
    arguments; what it accepts is not decided here. *)
Variable plt_hist : list float -> bins_arg -> hist_color -> result unit.

(** [plot_histogram(data, bins, xlim, ..., xtick_distance, bin_color,
    bottom_threshold, top_threshold, ...)], lines 70-126, without the
    styling calls. *)
Definition plot_histogram (data : list float) (bins : bins_arg)
    (xlim : option (Q * Q)) (xtick_distance : option Q) (bin_color : color_arg)
    (bottom_threshold top_threshold : option float) : error + histogram :=
  match apply_thresholds data bottom_threshold top_threshold with
  | inl e => inl (Raised e)
  | inr data =>
      match choose_bins xlim bins with
      | inl e => inl e
      | inr bins =>
          match choose_color bin_color bins with
          | inl e => inl e
          | inr color =>
              match plt_hist data bins color with
              | inl e => inl (Raised e)
              | inr _ =>
                  match xtick_distance with
                  | None =>
                      inr {| hist_data := data; hist_bins := bins;
                             hist_color_used := color; xticks_arange := None |}
                  | Some distance =>
                      match (try! lo := np_min data in
                             try! hi := np_max data in inr (lo, hi)) with
                      | inl e => inl (Raised e)
                      | inr (lo, hi) =>
                          inr {| hist_data := data; hist_bins := bins;
                                 hist_color_used := color;
                                 xticks_arange := Some (lo, hi, distance) |}
                      end
                  end
              end
          end
      end
  end.

End Plot.

(** A sample is kept by the filters when it is at or above the bottom
    threshold and at or below the top one, each converted to float32,
    where they are given. *)
Definition within (bottom_threshold top_threshold : option float) (x : float) : bool :=
  match bottom_threshold with Some b => ge x (to_float32 b) | None => true end
  && match top_threshold with Some t => le x (to_float32 t) | None => true end.

(** A drawing call that accepts every argument. *)
Definition hist_accepts_all (data : list float) (bins : bins_arg) (color : hist_color)
    : result unit :=
  inr tt.

End Histogram.

(** ** Raw_Data_Threshold_xlsx_Export.py: the sweep and the exported sheet *)

Module ExportScript.
Import Float Py Loader Threshold Naming.

Inductive error : Type :=
| Raised (e : exn)
| KeyError (key : Z).

(** [str(z)] of an integer. *)
Definition str_int (z : Z) : string :=
  if (z <? 0)%Z then "-" +:+ str (Z.to_nat (- z)) else str (Z.to_nat z).

(** A cell of the data frame: text or an integer count. *)
Inductive cell : Type :=
| Text (s : string)
| Number (z : Z).

Definition render (c : cell) : string :=
  match c with
  | Text s => s
  | Number z => str_int z
  end.

(** [d[k] = v] on a dict kept in insertion order: the value of an
    existing key is replaced in place, a new key goes to the end. *)
Fixpoint dict_set {V : Type} (d : list (string * V)) (k : string) (v : V)
    : list (string * V) :=
  match d with
  | [] => [(k, v)]
  | (k', v') :: rest =>
      if String.eqb k' k then (k', v) :: rest else (k', v') :: dict_set rest k v
  end.

Section Script.

Variable float_of_string : string -> option float.
Variable np_float32 : float -> float.
Variable fs : filesystem.

(** The script constants [path_A], [number_of_files], [exptitle],
    [expnum] and [thresholds]. *)
Variable path_A : string.
Variable number_of_files : nat.
Variable exptitle : string.
Variable expnum : nat.
Variable thresholds : list Z.

(** [[f"{exptitle}{i:02d}" for i in range(1, expnum + 1)]]. *)
Definition file_stems : list string :=
  List.map (fun i => exptitle +:+ fmt_02d i) (seq 1 expnum).

(** [{threshold: [] for threshold in thresholds}]. *)
Definition events_dict_init : gmap Z (list Z) :=
  fold_left (fun d threshold => <[threshold := []]> d) thresholds ∅.

(** The [for threshold in thresholds] loop of lines 88-91, for one run. *)
Fixpoint threshold_loop (file_stem : string) (channelA_arr : list float)
    (remaining : list Z) (events_dict : gmap Z (list Z)) (out : list string)
    : list string * (error + gmap Z (list Z)) :=
  match remaining with
  | [] => (out, inr events_dict)
  | threshold :: remaining' =>
      let events := count_events_above_threshold channelA_arr (of_Z threshold) in
      match events_dict !! threshold with
      | None => (out, inl (KeyError threshold))
      | Some column =>
          threshold_loop file_stem channelA_arr remaining'
            (<[threshold := column ++ [events]]> events_dict)
            (out ++ [file_stem +:+ " - Number of events above " +:+ str_int threshold
                     +:+ ": " +:+ str_int events])
      end
  end.

(** The [for file_stem in file_stems] loop of lines 86-91. *)
Fixpoint file_stem_loop (stems : list string) (events_dict : gmap Z (list Z))
    (out : list string) : list string * (error + gmap Z (list Z)) :=
  match stems with
  | [] => (out, inr events_dict)
  | file_stem :: stems' =>
      match load_files float_of_string np_float32 fs path_A number_of_files file_stem with
      | (lines, inl e) => (out ++ lines, inl (Raised e))
      | (lines, inr (channelA_arr, _)) =>
          match threshold_loop file_stem channelA_arr thresholds events_dict
                  (out ++ lines) with
          | (out', inl e) => (out', inl e)
          | (out', inr events_dict') => file_stem_loop stems' events_dict' out'
          end
      end
  end.

(** Lines 94-102: the columns of the sheet, in the order of the dict. *)
Definition fixed_columns : list (string * list cell) :=
  [ ("Datafile", List.map (fun i => Text (fmt_02d i)) (seq 1 expnum));
    ("Contents", repeat (Text "") expnum);
    ("Conc", repeat (Text "") expnum);
    ("Incub", repeat (Text "") expnum);
    ("Flow", repeat (Text "") expnum) ].

Fixpoint add_event_columns (remaining : list Z) (events_dict : gmap Z (list Z))
    (data : list (string * list cell)) : error + list (string * list cell) :=
  match remaining with
  | [] => inr data
  | threshold :: remaining' =>
      match events_dict !! threshold with
      | None => inl (KeyError threshold)
      | Some column =>
          add_event_columns remaining' events_dict
            (dict_set data ("Events above " +:+ str_int threshold)
               (List.map Number column))
      end
  end.

(** [pd.DataFrame(data)]: the columns must all have the same length. *)
Definition DataFrame (data : list (string * list cell))
    : error + list (string * list cell) :=
  match data with
  | [] => inr []
  | (_, first) :: rest =>
      if forallb (fun kc => (List.length (snd kc) =? List.length first)%nat) rest
      then inr data
      else inl (Raised (ValueError "All arrays must be of the same length"))
  end.

(** The sheet [df.to_excel(..., index=False)] writes: a header row, then
    one row per index. *)
Definition sheet_of (df : list (string * list cell)) : list row :=
  List.map fst df
  :: match df with
     | [] => []
     | (_, first) :: _ =>
         List.map (fun i => List.map (fun kc => render (nth i (snd kc) (Text ""))) df)
           (seq 0 (List.length first))
     end.

(** Lines 83-109, from the empty [events_dict] to the written file; the
    output path is the one computed on line 48. *)
Definition export (excel_output_path : string) : list string * (error + filesystem) :=
  match file_stem_loop file_stems events_dict_init [] with
  | (out, inl e) => (out, inl e)
  | (out, inr events_dict) =>
      match add_event_columns thresholds events_dict fixed_columns with
      | inl e => (out, inl e)
      | inr data =>
          match DataFrame data with
          | inl e => (out, inl e)
          | inr df =>
              match to_excel fs excel_output_path (sheet_of df) with
              | inl e => (out, inl (Raised e))
              | inr fs' =>
                  (out ++ ["Data successfully exported to " +:+ excel_output_path],
                   inr fs')
              end
          end
      end
  end.

(** The first array [load_files] returns for a run; empty if it raises. *)
Definition channel_A (file_stem : string) : list float :=
  match load_files float_of_string np_float32 fs path_A number_of_files file_stem with
  | (_, inr (channelA_arr, _)) => channelA_arr
  | (_, inl _) => []
  end.

(** The counts of one threshold over the runs, in run order. *)
Definition events_column (threshold : Z) : list Z :=
  List.map (fun file_stem =>
              count_events_above_threshold (channel_A file_stem) (of_Z threshold))
    file_stems.

(** Every file of every run that exists has two numeric fields per row. *)
Definition sound_runs : Prop :=
  forall file_stem i rows,
    In file_stem file_stems -> i < number_of_files ->
    fs !! data_filename path_A file_stem i = Some (File rows) ->
    Forall (fun r => is_Some (field_value float_of_string 0 r)
                     /\ is_Some (field_value float_of_string 1 r)) rows.

End Script.

(** A directory with the single file of run ["run01"]: two samples on
    each channel. *)
Definition sweep_fs : filesystem :=
  {[ "data/run01" := File [["7"; "8"]; ["30"; "1"]] ]}.

End ExportScript.

(** * Properties *)

(** ** Comparisons of array values *)

Section FloatFacts.
Import Float.

Lemma gt_Finite (p q : Q) : gt (Finite p) (Finite q) = true <-> (q < p)%Q.
Proof.
  simpl. rewrite negb_true_iff, <- not_true_iff_false, Qle_bool_iff.
  split; [apply Qnot_le_lt | apply Qlt_not_le].
Qed.

Lemma le_Finite (p q : Q) : le (Finite p) (Finite q) = true <-> (p <= q)%Q.
Proof. simpl. apply Qle_bool_iff. Qed.

Lemma gt_irrefl (t : float) : gt t t = false.
Proof.
  destruct t as [| |q|]; simpl; trivial.
  apply negb_false_iff, Qle_bool_iff, Qle_refl.
Qed.

(** A value at or below the threshold is not above it. *)
Lemma le_not_gt (x t : float) : le x t = true -> gt x t = false.
Proof.
  destruct x as [| |p|], t as [| |q|]; simpl; try congruence.
  intros H. now rewrite H.
Qed.

(** A value above the larger threshold is above the smaller one. *)
Lemma gt_le_trans (x t1 t2 : float) :
  le t1 t2 = true -> gt x t2 = true -> gt x t1 = true.
Proof.
  destruct x as [| |p|], t1 as [| |q1|], t2 as [| |q2|]; simpl; try congruence.
  rewrite !negb_true_iff, <- !not_true_iff_false, !Qle_bool_iff.
  intros H12 Hn Hp. apply Hn. eapply Qle_trans; eassumption.
Qed.

End FloatFacts.

(** ** Rounding to a binary format *)

Section RoundingFacts.
Import Float Float32.
Local Open Scope Z_scope.

Lemma round_half_even_floor (q : Q) :
  (Qfloor q <= round_half_even q <= Qfloor q + 1)%Z.
Proof.
  unfold round_half_even.
  destruct (q - inject_Z (Qfloor q) ?= 1 # 2)%Q; [destruct (Z.even _)| |]; lia.
Qed.

Lemma round_half_even_Z (n : Z) : round_half_even (inject_Z n) = n.
Proof.
  unfold round_half_even. rewrite Qfloor_Z.
  assert (E : (inject_Z n - inject_Z n ?= 1 # 2)%Q = Lt).
  { apply (proj1 (Qlt_alt _ _)). Lqa.lra. }
  now rewrite E.
Qed.

Lemma round_half_even_mono (p q : Q) :
  (p <= q)%Q -> (round_half_even p <= round_half_even q)%Z.
Proof.
  intros Hpq. pose proof (Qfloor_resp_le _ _ Hpq) as Hf.
  pose proof (round_half_even_floor p) as Bp.
  pose proof (round_half_even_floor q) as Bq.
  destruct (Z.eq_dec (Qfloor p) (Qfloor q)) as [E|Hne]; [|lia].
  unfold round_half_even in *. rewrite <- E in *.
  set (f := Qfloor p) in *.
  assert (Hr : (p - inject_Z f <= q - inject_Z f)%Q).
  { unfold Qminus. apply Qplus_le_compat; [exact Hpq | apply Qle_refl]. }
  destruct (p - inject_Z f ?= 1 # 2)%Q eqn:Cp;
    destruct (q - inject_Z f ?= 1 # 2)%Q eqn:Cq;
    try (destruct (Z.even f)); try lia; exfalso;
    first [apply (proj2 (Qeq_alt _ _)) in Cp | apply (proj2 (Qlt_alt _ _)) in Cp | apply (proj2 (Qgt_alt _ _)) in Cp];
    first [apply (proj2 (Qeq_alt _ _)) in Cq | apply (proj2 (Qlt_alt _ _)) in Cq | apply (proj2 (Qgt_alt _ _)) in Cq];
    Lqa.lra.
Qed.

Lemma round_half_even_ge (n : Z) (q : Q) :
  (inject_Z n <= q)%Q -> (n <= round_half_even q)%Z.
Proof. intros H. rewrite <- (round_half_even_Z n). now apply round_half_even_mono. Qed.

Lemma round_half_even_le (n : Z) (q : Q) :
  (q <= inject_Z n)%Q -> (round_half_even q <= n)%Z.
Proof. intros H. rewrite <- (round_half_even_Z n). now apply round_half_even_mono. Qed.

Section FormatFacts.
Variable prec : Z.
Variable binades : nat.
Hypothesis prec_pos : (0 < prec)%Z.

Lemma binade_spec (fuel : nat) :
  forall (k : Z) (s : Q) (k' : Z),
    binade prec fuel k s = Some k' ->
    (k <= k')%Z
    /\ (s < inject_Z (2 ^ (k' + prec)))%Q
    /\ ((k < k')%Z -> (inject_Z (2 ^ (k' + prec - 1)) <= s)%Q).
Proof.
  induction fuel as [|fuel IH]; intros k s k'; simpl; [discriminate|].
  destruct (s ?= inject_Z (2 ^ (k + prec)))%Q eqn:C.
  - intros H. apply IH in H as [H1 [H2 H3]]. split; [lia|]. split; [exact H2|].
    intros Hk. destruct (Z.eq_dec k' (k + 1)) as [->|Hne]; [|apply H3; lia].
    replace (k + 1 + prec - 1)%Z with (k + prec)%Z by lia.
    apply (proj2 (Qeq_alt _ _)) in C. rewrite C. apply Qle_refl.
  - intros H. injection H as <-. split; [lia|]. split; [now apply (proj2 (Qlt_alt _ _)) | lia].
  - intros H. apply IH in H as [H1 [H2 H3]]. split; [lia|]. split; [exact H2|].
    intros Hk. destruct (Z.eq_dec k' (k + 1)) as [->|Hne]; [|apply H3; lia].
    replace (k + 1 + prec - 1)%Z with (k + prec)%Z by lia.
    apply (proj2 (Qgt_alt _ _)) in C. now apply Qlt_le_weak.
Qed.

Lemma binade_mono (fuel : nat) :
  forall (k : Z) (s1 s2 : Q),
    (s1 <= s2)%Q ->
    match binade prec fuel k s1, binade prec fuel k s2 with
    | Some k1, Some k2 => (k1 <= k2)%Z
    | None, Some _ => False
    | _, None => True
    end.
Proof.
  induction fuel as [|fuel IH]; intros k s1 s2 Hs; simpl; [trivial|].
  destruct (s1 ?= inject_Z (2 ^ (k + prec)))%Q eqn:C1.
  - assert (C2 : (s2 ?= inject_Z (2 ^ (k + prec)))%Q <> Lt).
    { intros C2. apply (proj2 (Qlt_alt _ _)) in C2. apply (proj2 (Qeq_alt _ _)) in C1. rewrite C1 in Hs.
      apply (Qlt_irrefl s2). eapply Qlt_le_trans; eassumption. }
    destruct (s2 ?= inject_Z (2 ^ (k + prec)))%Q; try congruence; now apply IH.
  - destruct (s2 ?= inject_Z (2 ^ (k + prec)))%Q; [| lia |];
      (destruct (binade prec fuel (k + 1) s2) as [k2|] eqn:E; [|trivial];
       apply binade_spec in E; lia).
  - assert (C2 : (s2 ?= inject_Z (2 ^ (k + prec)))%Q <> Lt).
    { intros C2. apply (proj2 (Qlt_alt _ _)) in C2. apply (proj2 (Qgt_alt _ _)) in C1.
      apply (Qlt_irrefl s2). eapply Qlt_le_trans; [exact C2|].
      eapply Qle_trans; [apply Qlt_le_weak, C1 | exact Hs]. }
    destruct (s2 ?= inject_Z (2 ^ (k + prec)))%Q; try congruence; now apply IH.
Qed.

Lemma pow2_pos (k : Z) : (0 <= k)%Z -> (0 < inject_Z (2 ^ k))%Q.
Proof.
  intros Hk. change 0%Q with (inject_Z 0). rewrite <- Zlt_Qlt.
  apply Z.pow_pos_nonneg; lia.
Qed.

Lemma round_scaled_mono (s1 s2 : Q) :
  (s1 <= s2)%Q ->
  match round_scaled prec binades s1, round_scaled prec binades s2 with
  | Some r1, Some r2 => (r1 <= r2)%Z
  | None, Some _ => False
  | _, None => True
  end.
Proof.
  intros Hs. unfold round_scaled.
  pose proof (binade_mono binades 0 s1 s2 Hs) as Hk.
  destruct (binade prec binades 0 s1) as [k1|] eqn:E1;
    destruct (binade prec binades 0 s2) as [k2|] eqn:E2; simpl; trivial;
    try contradiction; try (now destruct (_ <? _)%Z).
  apply binade_spec in E1 as [K1 [U1 L1]]. apply binade_spec in E2 as [K2 [U2 L2]].
  set (B := (2 ^ (prec + Z.of_nat binades - 1))%Z).
  set (r1 := (round_half_even (s1 / inject_Z (2 ^ k1)) * 2 ^ k1)%Z).
  set (r2 := (round_half_even (s2 / inject_Z (2 ^ k2)) * 2 ^ k2)%Z).
  assert (Hr : (r1 <= r2)%Z).
  { unfold r1, r2. destruct (Z.eq_dec k1 k2) as [->|Hne].
    - apply Z.mul_le_mono_nonneg_r; [apply Z.pow_nonneg; lia|].
      apply round_half_even_mono. unfold Qdiv.
      apply Qmult_le_compat_r; [exact Hs|].
      apply Qinv_le_0_compat, Qlt_le_weak, pow2_pos, K2.
    - assert (H1 : (round_half_even (s1 / inject_Z (2 ^ k1)) <= 2 ^ prec)%Z).
      { apply round_half_even_le, Qlt_le_weak, Qlt_shift_div_r; [now apply pow2_pos|].
        rewrite <- inject_Z_mult, <- Z.pow_add_r by lia.
        now rewrite Z.add_comm. }
      assert (H2 : (2 ^ (prec - 1) <= round_half_even (s2 / inject_Z (2 ^ k2)))%Z).
      { apply round_half_even_ge, Qle_shift_div_l; [now apply pow2_pos|].
        rewrite <- inject_Z_mult, <- Z.pow_add_r by lia.
        replace (prec - 1 + k2)%Z with (k2 + prec - 1)%Z by lia. apply L2. lia. }
      assert (P1 : (0 < 2 ^ k1)%Z) by (apply Z.pow_pos_nonneg; lia).
      assert (P2 : (0 < 2 ^ k2)%Z) by (apply Z.pow_pos_nonneg; lia).
      apply Z.le_trans with (2 ^ prec * 2 ^ k1)%Z;
        [apply Z.mul_le_mono_nonneg_r; lia|].
      apply Z.le_trans with (2 ^ (prec - 1) * 2 ^ k2)%Z;
        [|apply Z.mul_le_mono_nonneg_r; lia].
      rewrite <- !Z.pow_add_r by lia. apply Z.pow_le_mono_r; lia. }
  destruct (Z.ltb_spec r2 B) as [H2|H2]; [|now destruct (r1 <? B)%Z].
  destruct (Z.ltb_spec r1 B) as [H1|H1]; [exact Hr | lia].
Qed.

Lemma round_scaled_nonneg (s : Q) (r : Z) :
  (0 <= s)%Q -> round_scaled prec binades s = Some r -> (0 <= r)%Z.
Proof.
  intros Hs. unfold round_scaled.
  destruct (binade prec binades 0 s) as [k|] eqn:E; [|discriminate].
  apply binade_spec in E as [K _].
  destruct (_ <? _)%Z; [|discriminate]. intros H. injection H as <-.
  apply Z.mul_nonneg_nonneg; [|apply Z.pow_nonneg; lia].
  apply (round_half_even_ge 0). unfold Qdiv.
  apply Qmult_le_0_compat; [exact Hs|].
  apply Qinv_le_0_compat, Qlt_le_weak, pow2_pos, K.
Qed.

End FormatFacts.

Section RoundTo.
Variable prec : Z.
Variable binades : nat.
Variable scale : Z.
Hypothesis prec_pos : (0 < prec)%Z.
Hypothesis scale_pos : (0 < scale)%Z.

Lemma scale_Qpos : (0 < inject_Z scale)%Q.
Proof. change 0%Q with (inject_Z 0). now rewrite <- Zlt_Qlt. Qed.

Lemma unscale_le (r1 r2 : Z) :
  (r1 <= r2)%Z ->
  (Qred (inject_Z r1 / inject_Z scale) <= Qred (inject_Z r2 / inject_Z scale))%Q.
Proof.
  intros H. rewrite !Qred_correct. unfold Qdiv.
  apply Qmult_le_compat_r; [now rewrite <- Zle_Qle|].
  apply Qinv_le_0_compat, Qlt_le_weak, scale_Qpos.
Qed.

Lemma unscale_nonneg (r : Z) :
  (0 <= r)%Z -> (0 <= Qred (inject_Z r / inject_Z scale))%Q.
Proof.
  intros H. rewrite Qred_correct. unfold Qdiv.
  apply Qmult_le_0_compat; [change 0%Q with (inject_Z 0); now rewrite <- Zle_Qle|].
  apply Qinv_le_0_compat, Qlt_le_weak, scale_Qpos.
Qed.

Lemma round_to_mono (a b : float) :
  le a b = true -> le (round_to prec binades scale a) (round_to prec binades scale b) = true.
Proof.
  destruct a as [| |p|], b as [| |q|]; intros Hle; simpl in Hle; try discriminate;
    unfold round_to;
    try (repeat match goal with
                | |- context [if ?c then _ else _] => destruct c
                | |- context [round_scaled ?a ?b ?c] => destruct (round_scaled a b c)
                end; reflexivity).
  apply Qle_bool_iff in Hle.
  destruct (Qle_bool 0 p) eqn:Sp, (Qle_bool 0 q) eqn:Sq.
  - apply Qle_bool_iff in Sp, Sq.
    pose proof (round_scaled_mono prec binades prec_pos
                  (p * inject_Z scale) (q * inject_Z scale)) as M.
    assert (Hs : (p * inject_Z scale <= q * inject_Z scale)%Q)
      by (apply Qmult_le_compat_r; [exact Hle | apply Qlt_le_weak, scale_Qpos]).
    specialize (M Hs).
    destruct (round_scaled prec binades (p * inject_Z scale)) as [r1|],
             (round_scaled prec binades (q * inject_Z scale)) as [r2|];
      try reflexivity; try contradiction.
    unfold le. apply Qle_bool_iff. now apply unscale_le.
  - exfalso. apply Qle_bool_iff in Sp.
    assert (Hq : (0 <= q)%Q) by (eapply Qle_trans; eassumption).
    apply Qle_bool_iff in Hq. congruence.
  - apply Qle_bool_iff in Sq.
    assert (Hp : ~ (0 <= p)%Q) by (intros H; apply Qle_bool_iff in H; congruence).
    destruct (round_scaled prec binades (- p * inject_Z scale)) as [r1|] eqn:E1,
             (round_scaled prec binades (q * inject_Z scale)) as [r2|] eqn:E2;
      try reflexivity.
    unfold le. apply Qle_bool_iff.
    apply round_scaled_nonneg in E1, E2; try exact prec_pos.
    + apply Qle_trans with 0%Q.
      * rewrite Qred_correct.
        pose proof (unscale_nonneg r1 E1) as H1. rewrite Qred_correct in H1. Lqa.lra.
      * now apply unscale_nonneg.
    + apply Qmult_le_0_compat; [exact Sq | apply Qlt_le_weak, scale_Qpos].
    + apply Qmult_le_0_compat; [Lqa.lra | apply Qlt_le_weak, scale_Qpos].
  - assert (Hs : (- q * inject_Z scale <= - p * inject_Z scale)%Q).
    { apply Qmult_le_compat_r; [Lqa.lra | apply Qlt_le_weak, scale_Qpos]. }
    pose proof (round_scaled_mono prec binades prec_pos _ _ Hs) as M.
    destruct (round_scaled prec binades (- p * inject_Z scale)) as [r1|],
             (round_scaled prec binades (- q * inject_Z scale)) as [r2|];
      try reflexivity; try contradiction.
    unfold le. apply Qle_bool_iff. rewrite !Qred_correct.
    pose proof (unscale_le r2 r1 M) as H. rewrite !Qred_correct in H. Lqa.lra.
Qed.

End RoundTo.

(** The conversion to float32 keeps the order. *)
Lemma to_float32_mono (a b : float) :
  le a b = true -> le (to_float32 a) (to_float32 b) = true.
Proof. apply round_to_mono; reflexivity. Qed.

Lemma same_gt_r (x a b : float) : same a b = true -> gt x a = gt x b.
Proof.
  destruct x as [| |p|], a as [| |q|], b as [| |r|]; simpl; try congruence.
  intros E. apply Qeq_bool_iff in E. now rewrite E.
Qed.

Lemma same_le_l (a b c : float) : same a b = true -> le a c = le b c.
Proof.
  destruct a as [| |p|], b as [| |q|], c as [| |r|]; simpl; try congruence.
  intros E. apply Qeq_bool_iff in E. now rewrite E.
Qed.

(** A float32 value at or below a threshold is at or below the threshold
    as converted to float32. *)
Lemma le_to_float32 (x t : float) :
  is_float32 x = true -> le x t = true -> le x (to_float32 t) = true.
Proof.
  intros Hx Hle. rewrite <- (same_le_l _ _ _ Hx). now apply to_float32_mono.
Qed.

End RoundingFacts.

(** ** Counting threshold events *)

Section ThresholdFacts.
Import Float Float32 Threshold.

Lemma np_sum_from (mask : list bool) (acc : Z) :
  fold_left (fun acc b => (acc + Z.b2z b)%Z) mask acc
  = (acc + Z.of_nat (List.length (List.filter (fun b => b) mask)))%Z.
Proof.
  revert acc. induction mask as [|b mask IH]; intros acc; simpl.
  - lia.
  - rewrite IH. destruct b; simpl; lia.
Qed.

Lemma strictly_greater_count_filter (a : list float) (t : float) :
  strictly_greater_count a t = List.length (List.filter (fun x => gt x t) a).
Proof.
  induction a as [|x a IH]; simpl; [reflexivity|].
  destruct (gt x t); simpl; now rewrite IH.
Qed.

(** The count is the number of elements above the converted threshold. *)
Lemma count_events_spec (a : list float) (t : float) :
  count_events_above_threshold a t
  = Z.of_nat (strictly_greater_count a (to_float32 t)).
Proof.
  unfold count_events_above_threshold, np_sum, greater.
  rewrite np_sum_from, Z.add_0_l. f_equal.
  generalize (to_float32 t) as t'. intros t'.
  induction a as [|x a IH]; simpl; [reflexivity|].
  destruct (gt x t'); simpl; now rewrite IH.
Qed.

Lemma strictly_greater_count_anti (a : list float) (t1 t2 : float) :
  le t1 t2 = true ->
  (strictly_greater_count a t2 <= strictly_greater_count a t1)%nat.
Proof.
  intros Hle. induction a as [|x a IH]; simpl; [lia|].
  destruct (gt x t2) eqn:H2.
  - rewrite (gt_le_trans x t1 t2 Hle H2). lia.
  - destruct (gt x t1); lia.
Qed.

Lemma strictly_greater_count_same (a : list float) (t t' : float) :
  same t' t = true -> strictly_greater_count a t' = strictly_greater_count a t.
Proof.
  intros E. induction a as [|x a IH]; simpl; [reflexivity|].
  now rewrite (same_gt_r x t' t E), IH.
Qed.

(** One pass of the threshold sweep of the script over a short trace:
    NaN is never an event, a sample equal to the threshold is not one. *)
Example count_events_sweep :
  List.map (count_events_above_threshold [of_Z 25; of_Z 95; of_Z 200; NaN; of_Z 30])
    thresholds
  = [4; 2; 2; 2; 2; 2; 2; 2; 1; 1; 1; 1; 1; 1; 0]%Z.
Proof. vm_compute. reflexivity. Qed.

(** The thresholds of the script are float32 values: the conversion
    leaves them as they are. *)
Example thresholds_are_float32 :
  forallb is_float32 thresholds = true.
Proof. vm_compute. reflexivity. Qed.

(** The integer threshold 16777219 is not a float32 value: it is
    converted to 16777220, so the sample 16777220, which is strictly
    greater than the threshold, is not counted. *)
Lemma count_events_above_threshold_rounds_threshold :
  is_float32 (of_Z 16777220) = true
  /\ is_float64 (of_Z 16777219) = true
  /\ gt (of_Z 16777220) (of_Z 16777219) = true
  /\ count_events_above_threshold [of_Z 16777220] (of_Z 16777219) = 0%Z
  /\ count_events_above_threshold [of_Z 16777220] (of_Z 16777219)
     <> Z.of_nat (strictly_greater_count [of_Z 16777220] (of_Z 16777219)).
Proof.
  repeat split; try (vm_compute; reflexivity).
  vm_compute. discriminate.
Qed.

(** C1 (amended): for every float32 array [a] and every threshold [t]
    that is a Python number, the value returned by
    [count_events_above_threshold] is the number of elements of [a]
    strictly greater than [t] converted to float32; when [t] is a float32
    value, as the thresholds of the script are, it is the number of
    elements strictly greater than [t].  The comparison is strict (on
    finite values it is the strict order of the rationals): an element
    equal to the converted threshold is not counted. *)
Theorem count_events_above_threshold_strict (a : list float) (t : float) :
  is_float64 t = true ->
  count_events_above_threshold a t
  = Z.of_nat (strictly_greater_count a (to_float32 t))
  /\ (is_float32 t = true ->
      count_events_above_threshold a t = Z.of_nat (strictly_greater_count a t))
  /\ strictly_greater_count a t = List.length (List.filter (fun x => gt x t) a)
  /\ (forall p q : Q, gt (Finite p) (Finite q) = true <-> (q < p)%Q)
  /\ count_events_above_threshold (a ++ [to_float32 t]) t
     = count_events_above_threshold a t.
Proof.
  intros _.
  split; [apply count_events_spec|].
  split; [intros Ht; rewrite count_events_spec;
          now rewrite (strictly_greater_count_same a t (to_float32 t) Ht)|].
  split; [apply strictly_greater_count_filter|].
  split; [apply gt_Finite|].
  rewrite !count_events_spec, !strictly_greater_count_filter.
  rewrite List.filter_app, List.length_app. simpl.
  rewrite gt_irrefl. simpl. lia.
Qed.

Lemma count_events_above_threshold_strict_witness :
  is_float64 (of_Z 30) = true
  /\ is_float32 (of_Z 30) = true
  /\ count_events_above_threshold [of_Z 25; of_Z 30; of_Z 35; NaN] (of_Z 30)
     = Z.of_nat (strictly_greater_count [of_Z 25; of_Z 30; of_Z 35; NaN] (of_Z 30)).
Proof.
  split; [vm_compute; reflexivity|]. split; [vm_compute; reflexivity|].
  apply (count_events_above_threshold_strict
           [of_Z 25; of_Z 30; of_Z 35; NaN] (of_Z 30));
    vm_compute; reflexivity.
Defined.

(** C2: for a fixed array, raising the threshold never raises the
    count: if [t1 <= t2] then the count above [t2] is at most the count
    above [t1]. *)
Theorem count_events_above_threshold_antitone (a : list float) (t1 t2 : float) :
  le t1 t2 = true ->
  (count_events_above_threshold a t2 <= count_events_above_threshold a t1)%Z.
Proof.
  intros Hle. rewrite !count_events_spec.
  apply Nat2Z.inj_le, strictly_greater_count_anti, to_float32_mono, Hle.
Qed.

Lemma count_events_above_threshold_antitone_witness :
  le (of_Z 20) (of_Z 30) = true
  /\ (count_events_above_threshold [of_Z 25; of_Z 35; NaN; PosInf] (of_Z 30)
      <= count_events_above_threshold [of_Z 25; of_Z 35; NaN; PosInf] (of_Z 20))%Z.
Proof.
  split; [reflexivity|].
  apply (count_events_above_threshold_antitone
           [of_Z 25; of_Z 35; NaN; PosInf] (of_Z 20) (of_Z 30)).
  reflexivity.
Defined.

(** C3: the count of an empty array is 0, and so is the count of a
    float32 array all of whose elements are at or below the threshold. *)
Theorem count_events_above_threshold_zero (t : float) :
  count_events_above_threshold [] t = 0%Z
  /\ forall a : list float,
       Forall (fun x => is_float32 x = true) a ->
       Forall (fun x => le x t = true) a ->
       count_events_above_threshold a t = 0%Z.
Proof.
  split; [reflexivity|].
  intros a Harr Hall. rewrite count_events_spec.
  induction Hall as [|x a Hx _ IH]; simpl; [reflexivity|].
  inversion Harr as [|? ? Hf Harr']; subst.
  rewrite (le_not_gt x (to_float32 t) (le_to_float32 x t Hf Hx)).
  now apply IH.
Qed.

Lemma count_events_above_threshold_zero_witness :
  Forall (fun x => is_float32 x = true) [of_Z 20; of_Z 50; NegInf]
  /\ Forall (fun x => le x (of_Z 50) = true) [of_Z 20; of_Z 50; NegInf]
  /\ count_events_above_threshold [of_Z 20; of_Z 50; NegInf] (of_Z 50) = 0%Z.
Proof.
  assert (Harr : Forall (fun x => is_float32 x = true) [of_Z 20; of_Z 50; NegInf])
    by (repeat constructor; vm_compute; reflexivity).
  assert (Hall : Forall (fun x => le x (of_Z 50) = true) [of_Z 20; of_Z 50; NegInf])
    by (repeat constructor).
  split; [exact Harr|]. split; [exact Hall|].
  exact (proj2 (count_events_above_threshold_zero (of_Z 50)) _ Harr Hall).
Defined.

End ThresholdFacts.

(** ** The Hill curve *)

Section HillFacts.
Import Hill.
Local Open Scope R_scope.

Lemma power_pos_base (x n : R) :
  0 < x -> exists p, power x n = Some p /\ 0 < p.
Proof.
  intros Hx. unfold power.
  destruct (Req_EM_T n 0) as [_|_].
  - exists 1. split; [reflexivity | lra].
  - destruct (Rlt_dec 0 x) as [_|Hn]; [|contradiction].
    exists (Rpower x n). split; [reflexivity | apply exp_pos].
Qed.

Lemma power_pos_base_nonzero_exp (x n : R) :
  0 < x -> n <> 0 -> power x n = Some (Rpower x n).
Proof.
  intros Hx Hn. unfold power.
  destruct (Req_EM_T n 0) as [E|_]; [contradiction|].
  destruct (Rlt_dec 0 x) as [_|H]; [reflexivity | contradiction].
Qed.

Lemma power_zero_base (n : R) : 0 < n -> power 0 n = Some 0.
Proof.
  intros Hn. unfold power.
  destruct (Req_EM_T n 0) as [E|_]; [lra|].
  destruct (Rlt_dec 0 0) as [H|_]; [lra|].
  destruct (Req_EM_T 0 0) as [_|H]; [|lra].
  destruct (Rlt_dec 0 n) as [_|H]; [reflexivity | contradiction].
Qed.

Lemma power_zero_exp (x : R) : power x 0 = Some 1.
Proof.
  unfold power. destruct (Req_EM_T 0 0) as [_|H]; [reflexivity | lra].
Qed.

Lemma divide_nonzero (a b : R) : b <> 0 -> divide a b = Some (a / b).
Proof.
  intros Hb. unfold divide.
  destruct (Req_EM_T b 0) as [E|_]; [contradiction | reflexivity].
Qed.

(** With a positive base the power grows past every bound. *)
Lemma Rpower_above (B n x : R) :
  0 < B -> 0 < n -> Rpower B (/ n) < x -> B < Rpower x n.
Proof.
  intros HB Hn Hx.
  assert (HM : 0 < Rpower B (/ n)) by apply exp_pos.
  assert (E : Rpower (Rpower B (/ n)) n = B).
  { rewrite Rpower_mult, Rinv_l by lra. now apply Rpower_1. }
  rewrite <- E at 1. apply Rlt_Rpower_l; [assumption | split; assumption].
Qed.

(** The slope-0 curve at the origin is half the asymptote, not 0. *)
Lemma hill_equation_at_zero_slope_zero :
  hill_equation 0 1 1 0 = Some (1 / 2) /\ hill_equation 0 1 1 0 <> Some 0.
Proof.
  assert (E : hill_equation 0 1 1 0 = Some (1 / 2)).
  { unfold hill_equation. rewrite !power_zero_exp.
    rewrite divide_nonzero by lra. f_equal. lra. }
  split; [exact E|].
  rewrite E. intros H. injection H as H. lra.
Qed.

(** C5 (amended): for a positive midpoint [Kd] and a positive slope [n],
    the curve evaluated at [x = 0] is 0, whatever the asymptote. *)
Theorem hill_equation_at_zero (Vmax Kd n : R) :
  0 < Kd -> 0 < n -> hill_equation 0 Vmax Kd n = Some 0.
Proof.
  intros HKd Hn. unfold hill_equation.
  rewrite (power_zero_base n Hn).
  rewrite (power_pos_base_nonzero_exp Kd n HKd) by lra.
  assert (Hp : 0 < Rpower Kd n) by apply exp_pos.
  rewrite divide_nonzero by lra. f_equal. field. lra.
Qed.

Lemma hill_equation_at_zero_witness :
  0 < 1 /\ 0 < 2 /\ hill_equation 0 3 1 2 = Some 0.
Proof.
  split; [lra|]. split; [lra|].
  apply (hill_equation_at_zero 3 1 2); lra.
Defined.

(** C6: for positive [Kd] and [n], the curve tends to the asymptote
    [Vmax] as [x] grows without bound: beyond some [M] every value of the
    curve is within [eps] of [Vmax]. *)
Theorem hill_equation_limit (Vmax Kd n : R) :
  0 < Kd -> 0 < n ->
  forall eps : R, 0 < eps ->
  exists M : R, forall x : R, M < x ->
    exists y : R, hill_equation x Vmax Kd n = Some y /\ Rabs (y - Vmax) < eps.
Proof.
  intros HKd Hn eps Heps.
  set (p := Rpower Kd n).
  assert (Hp : 0 < p) by apply exp_pos.
  set (B := Rabs Vmax * p / eps + 1).
  assert (HB0 : 0 <= Rabs Vmax * p / eps).
  { apply Rmult_le_pos; [apply Rmult_le_pos|]; try lra.
    - apply Rabs_pos.
    - apply Rlt_le, Rinv_0_lt_compat, Heps. }
  assert (HB : 0 < B) by (unfold B; lra).
  exists (Rpower B (/ n)). intros x Hx.
  assert (Hx0 : 0 < x).
  { eapply Rlt_trans; [apply (exp_pos (/ n * ln B)) | exact Hx]. }
  pose proof (Rpower_above B n x HB Hn Hx) as Hxn.
  set (xn := Rpower x n) in *.
  exists (Vmax * xn / (p + xn)). split.
  - unfold hill_equation.
    rewrite (power_pos_base_nonzero_exp x n Hx0) by lra.
    rewrite (power_pos_base_nonzero_exp Kd n HKd) by lra.
    fold p xn. apply divide_nonzero. lra.
  - assert (Hd : 0 < p + xn) by lra.
    replace (Vmax * xn / (p + xn) - Vmax) with (- (Vmax * p / (p + xn)))
      by (field; lra).
    rewrite Rabs_Ropp. unfold Rdiv.
    rewrite Rabs_mult, Rabs_mult.
    rewrite (Rabs_pos_eq p) by lra.
    rewrite (Rabs_pos_eq (/ (p + xn)))
      by (apply Rlt_le, Rinv_0_lt_compat, Hd).
    apply (Rmult_lt_reg_r (p + xn)); [exact Hd|].
    rewrite Rmult_assoc, Rinv_l, Rmult_1_r by lra.
    assert (HBe : Rabs Vmax * p = (B - 1) * eps) by (unfold B; field; lra).
    rewrite HBe. nra.
Qed.

Lemma hill_equation_limit_witness :
  0 < 1 /\ 0 < 1 /\ 0 < 1 /\
  exists M : R, forall x : R, M < x ->
    exists y : R, hill_equation x 1 1 1 = Some y /\ Rabs (y - 1) < 1.
Proof.
  split; [lra|]. split; [lra|]. split; [lra|].
  apply (hill_equation_limit 1 1 1); lra.
Defined.

(** C7: with asymptote, midpoint and slope all 1 the curve at [x = 1] is
    0.5; in general, at the midpoint [x = Kd > 0] the curve is half the
    asymptote, for every slope. *)
Theorem hill_equation_half_maximal :
  hill_equation 1 1 1 1 = Some (1 / 2)
  /\ forall Vmax Kd n : R, 0 < Kd -> hill_equation Kd Vmax Kd n = Some (Vmax / 2).
Proof.
  assert (G : forall Vmax Kd n : R,
             0 < Kd -> hill_equation Kd Vmax Kd n = Some (Vmax / 2)).
  { intros Vmax Kd n HKd. unfold hill_equation.
    destruct (power_pos_base Kd n HKd) as [p [Ep Hp]].
    rewrite Ep. rewrite divide_nonzero by lra. f_equal. field. lra. }
  split; [|exact G].
  rewrite (G 1 1 1) by lra. reflexivity.
Qed.

Lemma hill_equation_half_maximal_witness :
  0 < 2 /\ hill_equation 2 3 2 5 = Some (3 / 2).
Proof.
  split; [lra|].
  apply (proj2 hill_equation_half_maximal 3 2 5). lra.
Defined.

End HillFacts.

(** ** The positivity filter of the Hill-fit script *)

Section HillDataFacts.
Import Float Py HillData.

Lemma label_from_ge (k0 : nat) (rows : list record) (k : nat) (r : record) :
  In (k, r) (label_from k0 rows) -> (k0 <= k)%nat.
Proof.
  revert k0. induction rows as [|r0 rows IH]; intros k0; simpl; [tauto|].
  intros [E | H].
  - injection E as -> _. lia.
  - apply IH in H. lia.
Qed.

(** Looking a label of the frame up in a Series computed from the frame
    finds the entry of that row. *)
Lemma label_lookup_label_from {A : Type} (g : record -> A)
    (k0 : nat) (rows : list record) (k : nat) (r : record) :
  In (k, r) (label_from k0 rows) ->
  label_lookup (List.map (fun kr => (fst kr, g (snd kr))) (label_from k0 rows)) k
  = Some (g r).
Proof.
  revert k0. induction rows as [|r0 rows IH]; intros k0; simpl; [tauto|].
  intros [E | H].
  - injection E as -> ->. now rewrite Nat.eqb_refl.
  - pose proof (label_from_ge _ _ _ _ H) as Hge.
    destruct (Nat.eqb_spec k0 k) as [->|_]; [lia|]. now apply IH.
Qed.

(** Indexing by a mask that knows every label keeps the flagged entries. *)
Lemma boolean_getitem_aligned (f : record -> float) (g : record -> bool)
    (mask : series bool) (l : list (nat * record)) :
  (forall k r, In (k, r) l -> label_lookup mask k = Some (g r)) ->
  boolean_getitem (List.map (fun kr => (fst kr, f (snd kr))) l) mask
  = inr (List.map (fun kr => (fst kr, f (snd kr)))
           (List.filter (fun kr => g (snd kr)) l)).
Proof.
  induction l as [|[k r] l IH]; intros Hmask; simpl; [reflexivity|].
  rewrite (Hmask k r) by (now left).
  rewrite IH by (intros k' r' H; apply Hmask; now right).
  simpl. now destruct (g r).
Qed.

Lemma positivity_filter_eq (df : dataframe) :
  positivity_filter df
  = inr (List.map (fun kr => (fst kr, Conc (snd kr))) (positive_rows df),
         List.map (fun kr => (fst kr, Mean (snd kr))) (positive_rows df),
         List.map (fun kr => (fst kr, SD (snd kr))) (positive_rows df)).
Proof.
  unfold positivity_filter, column, series_gt, positive_rows, labelled.
  set (g := fun r : record => gt (Conc r) zero).
  set (rows := label_from 0 df).
  assert (Em : List.map (fun kv => (fst kv, gt (snd kv) zero))
                 (List.map (fun kr => (fst kr, Conc (snd kr))) rows)
               = List.map (fun kr => (fst kr, g (snd kr))) rows)
    by (rewrite List.map_map; reflexivity).
  rewrite Em.
  assert (Hmask : forall k r, In (k, r) rows ->
            label_lookup (List.map (fun kr => (fst kr, g (snd kr))) rows) k
            = Some (g r))
    by (intros k r; apply label_lookup_label_from).
  rewrite !(boolean_getitem_aligned _ g _ _ Hmask). reflexivity.
Qed.

(** C10: the filter succeeds on every data frame; it keeps exactly the
    rows whose [Conc] is strictly greater than 0; the filtered [x], [y]
    and [y_sd] come from the same kept rows, so they have the same
    length and the same index labels, entry by entry; and every kept
    [x] value is positive. *)
Theorem positivity_filter_aligned (df : dataframe) :
  exists x y y_sd : series float,
    positivity_filter df = inr (x, y, y_sd)
    /\ x = List.map (fun kr => (fst kr, Conc (snd kr))) (positive_rows df)
    /\ y = List.map (fun kr => (fst kr, Mean (snd kr))) (positive_rows df)
    /\ y_sd = List.map (fun kr => (fst kr, SD (snd kr))) (positive_rows df)
    /\ (forall k r, In (k, r) (positive_rows df)
                    <-> In (k, r) (labelled df) /\ gt (Conc r) zero = true)
    /\ List.length x = List.length y /\ List.length y = List.length y_sd
    /\ List.map fst x = List.map fst y /\ List.map fst y = List.map fst y_sd
    /\ Forall (fun kv => gt (snd kv) zero = true) x.
Proof.
  eexists _, _, _.
  split; [apply positivity_filter_eq|].
  repeat (split; [reflexivity|]).
  split.
  { intros k r. unfold positive_rows. rewrite List.filter_In. reflexivity. }
  rewrite !List.length_map, !List.map_map. simpl.
  repeat (split; [reflexivity|]).
  apply List.Forall_forall. intros [k v] H.
  apply List.in_map_iff in H as [[k' r] [E H]].
  injection E as -> <-.
  unfold positive_rows in H. apply List.filter_In in H as [_ H]. exact H.
Qed.

End HillDataFacts.

(** ** Versioned output names *)

Section NamingFacts.
Import Py Naming.

Lemma string_length_append (s t : string) :
  String.length (s +:+ t) = (String.length s + String.length t)%nat.
Proof. induction s as [|c s IH]; simpl; [reflexivity | now rewrite IH]. Qed.

Lemma append_cancel_r (s1 s2 t : string) : s1 +:+ t = s2 +:+ t -> s1 = s2.
Proof.
  intros E.
  assert (L : String.length s1 = String.length s2).
  { apply (f_equal String.length) in E.
    rewrite !string_length_append in E. lia. }
  revert s2 E L. induction s1 as [|c s1 IH]; intros [|c' s2]; simpl;
    intros E L; try discriminate; [reflexivity|].
  injection E as -> E. injection L as L. f_equal. now apply IH.
Qed.

Lemma append_cancel_l (s t1 t2 : string) : s +:+ t1 = s +:+ t2 -> t1 = t2.
Proof.
  induction s as [|c s IH]; simpl; [trivial|].
  intros E. injection E as E. now apply IH.
Qed.

(** Distinct numbers have distinct decimal digits. *)
Lemma str_inj (a b : nat) : str a = str b -> a = b.
Proof.
  unfold str. intros E.
  apply (f_equal NilEmpty.uint_of_string) in E.
  rewrite !NilEmpty.usu in E. injection E as E.
  apply (f_equal Nat.of_uint) in E.
  now rewrite !DecimalNat.Unsigned.of_to in E.
Qed.

Lemma versioned_inj (base tail : string) (a b : nat) :
  base +:+ "_v" +:+ str a +:+ tail = base +:+ "_v" +:+ str b +:+ tail -> a = b.
Proof.
  intros E. apply append_cancel_l in E. apply append_cancel_l in E.
  apply append_cancel_r in E. now apply str_inj.
Qed.

Lemma os_path_join_cancel (path a b : string) :
  starts_with_sep a = starts_with_sep b ->
  os_path_join path a = os_path_join path b -> a = b.
Proof.
  unfold os_path_join. intros <-.
  destruct (starts_with_sep a); [trivial|].
  destruct ((String.length path =? 0)%nat || ends_with_sep path); intros E.
  - now apply append_cancel_l in E.
  - apply append_cancel_l in E. now injection E.
Qed.

Lemma starts_with_sep_base (base t1 t2 : string) (c1 c2 : ascii) :
  Ascii.eqb c1 sep = Ascii.eqb c2 sep ->
  starts_with_sep (base +:+ String c1 t1) = starts_with_sep (base +:+ String c2 t2).
Proof. destruct base; simpl; trivial. Qed.

Lemma unique_candidate_inj (path base ext : string) (a b : nat) :
  unique_candidate path base ext a = unique_candidate path base ext b -> a = b.
Proof.
  unfold unique_candidate.
  destruct (Nat.eqb_spec a 1) as [->|Ha], (Nat.eqb_spec b 1) as [->|Hb];
    trivial; intros E; apply os_path_join_cancel in E;
    try (apply starts_with_sep_base; reflexivity).
  - apply append_cancel_l in E. discriminate E.
  - apply append_cancel_l in E. discriminate E.
  - now apply versioned_inj in E.
Qed.

Lemma next_candidate_inj (base : string) (a b : nat) :
  next_candidate base a = next_candidate base b -> a = b.
Proof. unfold next_candidate. apply versioned_inj. Qed.

(** A finite file system cannot hold every name of an injective
    sequence: counting from any start, a free name comes up after at
    most as many steps as the file system has entries. *)
Lemma first_free (cand : nat -> string) :
  (forall a b, cand a = cand b -> a = b) ->
  forall (n : nat) (fs : filesystem) (start : nat),
    size fs <= n ->
    exists k, k <= n
      /\ fs !! cand (start + k) = None
      /\ forall j, j < k -> is_Some (fs !! cand (start + j)).
Proof.
  intros Hinj. induction n as [|n IH]; intros fs start Hsize.
  - exists 0. split; [lia|]. split; [|lia].
    assert (fs = ∅) as -> by (apply map_size_empty_inv; lia).
    apply lookup_empty.
  - destruct (fs !! cand start) as [x|] eqn:Hstart.
    + destruct (IH (delete (cand start) fs) (S start)) as [k [Hk [Hfree Hbusy]]].
      { rewrite map_size_delete_Some by eauto. lia. }
      exists (S k). split; [lia|].
      assert (Hne : forall i, cand start <> cand (S start + i)).
      { intros i E. apply Hinj in E. lia. }
      split.
      * replace (start + S k) with (S start + k) by lia.
        rewrite lookup_delete_ne in Hfree by apply Hne. exact Hfree.
      * intros [|j] Hj.
        -- rewrite Nat.add_0_r, Hstart. eauto.
        -- replace (start + S j) with (S start + j) by lia.
           rewrite <- (lookup_delete_ne fs (cand start)) by apply Hne.
           apply Hbusy. lia.
    + exists 0. split; [lia|]. split; [|lia].
      now rewrite Nat.add_0_r.
Qed.

Lemma os_path_exists_false (fs : filesystem) (p : string) :
  os_path_exists fs p = false <-> fs !! p = None.
Proof. unfold os_path_exists. destruct (fs !! p); split; congruence. Qed.

Lemma os_path_exists_true (fs : filesystem) (p : string) :
  os_path_exists fs p = true <-> is_Some (fs !! p).
Proof.
  unfold os_path_exists. destruct (fs !! p) eqn:E; split; eauto.
  - discriminate.
  - intros [x Hx]. discriminate.
Qed.

(** The loop of [get_unique_filename] walks the candidates in order and
    stops at the first free one. *)
Lemma unique_loop_finds (fs : filesystem) (path base ext : string) (k : nat) :
  forall fuel v,
    1 <= v -> k < fuel ->
    fs !! unique_candidate path base ext (v + k) = None ->
    (forall j, j < k -> is_Some (fs !! unique_candidate path base ext (v + j))) ->
    unique_loop fuel fs path base ext v (unique_candidate path base ext v)
    = Some (unique_candidate path base ext (v + k)).
Proof.
  induction k as [|k IH]; intros [|fuel] v Hv Hfuel Hfree Hbusy; try lia; simpl.
  - rewrite Nat.add_0_r in Hfree.
    apply os_path_exists_false in Hfree. rewrite Hfree.
    now rewrite Nat.add_0_r.
  - assert (Hv0 : os_path_exists fs (unique_candidate path base ext v) = true).
    { apply os_path_exists_true. rewrite <- (Nat.add_0_r v) at 1.
      apply Hbusy. lia. }
    rewrite Hv0.
    assert (Enext : os_path_join path (base +:+ "_v" +:+ str (S v) +:+ "." +:+ ext)
                    = unique_candidate path base ext (S v)).
    { unfold unique_candidate.
      destruct (Nat.eqb_spec (S v) 1); [lia | reflexivity]. }
    rewrite Enext.
    replace (v + S k) with (S v + k) in * by lia.
    apply IH; [lia | lia | exact Hfree |].
    intros j Hj. replace (S v + j) with (v + S j) by lia. apply Hbusy. lia.
Qed.

Lemma next_loop_finds (fs : filesystem) (base : string) (k : nat) :
  forall fuel v,
    k < fuel ->
    fs !! next_candidate base (v + k) = None ->
    (forall j, j < k -> is_Some (fs !! next_candidate base (v + j))) ->
    next_loop fuel fs base v = Some (next_candidate base (v + k)).
Proof.
  induction k as [|k IH]; intros [|fuel] v Hfuel Hfree Hbusy; try lia; simpl;
    fold (next_candidate base v).
  - rewrite Nat.add_0_r in Hfree.
    apply os_path_exists_false in Hfree. rewrite Hfree.
    now rewrite Nat.add_0_r.
  - assert (Hv0 : os_path_exists fs (next_candidate base v) = true).
    { apply os_path_exists_true. rewrite <- (Nat.add_0_r v) at 1.
      apply Hbusy. lia. }
    rewrite Hv0.
    replace (v + S k) with (S v + k) in * by lia.
    apply IH; [lia | exact Hfree |].
    intros j Hj. replace (S v + j) with (v + S j) by lia. apply Hbusy. lia.
Qed.

(** C9: on a file system with fewer entries than the fuel,
    [get_unique_filename] returns a path that does not exist: the plain
    name [base_filename.extension] if it is free, otherwise the first
    free [base_filename_vK.extension] with [K >= 2], every earlier
    candidate being taken; writing the Excel export there leaves every
    existing entry of the file system as it was.  Likewise
    [get_next_filename] returns the first [base_filename_vK.svg] with
    [K >= 1] that does not exist. *)
Theorem versioned_filename_is_free
    (fs : filesystem) (fuel : nat) (path base_filename extension : string) :
  size fs < fuel ->
  (exists p : string,
      get_unique_filename fuel fs path base_filename extension = Some p
      /\ os_path_exists fs p = false
      /\ (p = os_path_join path (base_filename +:+ "." +:+ extension)
          \/ (os_path_exists fs
                (os_path_join path (base_filename +:+ "." +:+ extension)) = true
              /\ exists K : nat,
                   2 <= K
                   /\ p = os_path_join path
                            (base_filename +:+ "_v" +:+ str K +:+ "." +:+ extension)
                   /\ forall j : nat, 2 <= j < K ->
                        os_path_exists fs
                          (os_path_join path
                             (base_filename +:+ "_v" +:+ str j +:+ "." +:+ extension))
                        = true))
      /\ forall sheet : list row, fs ⊆ fs_after fs (to_excel fs p sheet))
  /\ (exists K : nat,
        1 <= K
        /\ get_next_filename fuel fs base_filename
           = Some (base_filename +:+ "_v" +:+ str K +:+ ".svg")
        /\ os_path_exists fs (base_filename +:+ "_v" +:+ str K +:+ ".svg") = false
        /\ forall j : nat, 1 <= j < K ->
             os_path_exists fs (base_filename +:+ "_v" +:+ str j +:+ ".svg") = true).
Proof.
  intros Hfuel. split.
  - destruct (first_free (unique_candidate path base_filename extension)
                (unique_candidate_inj path base_filename extension)
                (size fs) fs 1 (le_n _)) as [k [Hk [Hfree Hbusy]]].
    exists (unique_candidate path base_filename extension (1 + k)).
    split; [|split; [|split]].
    + unfold get_unique_filename.
      apply (unique_loop_finds fs path base_filename extension k fuel 1);
        [lia | lia | exact Hfree | exact Hbusy].
    + now apply os_path_exists_false.
    + destruct k as [|k]; [left; reflexivity | right].
      split.
      * apply os_path_exists_true. apply (Hbusy 0). lia.
      * exists (1 + S k). split; [lia|]. split; [reflexivity|].
        intros j Hj. apply os_path_exists_true.
        specialize (Hbusy (j - 1)). replace (1 + (j - 1)) with j in Hbusy by lia.
        unfold unique_candidate in Hbusy.
        destruct (Nat.eqb_spec j 1); [lia|]. apply Hbusy. lia.
    + intros sheet. unfold to_excel, fs_after.
      destruct (negb (parent_is_dir fs _)); [reflexivity|].
      rewrite Hfree. now apply insert_subseteq.
  - destruct (first_free (next_candidate base_filename)
                (next_candidate_inj base_filename)
                (size fs) fs 1 (le_n _)) as [k [Hk [Hfree Hbusy]]].
    exists (1 + k). split; [lia|]. split; [|split].
    + unfold get_next_filename.
      apply (next_loop_finds fs base_filename k fuel 1);
        [lia | exact Hfree | exact Hbusy].
    + now apply os_path_exists_false.
    + intros j Hj. apply os_path_exists_true.
      specialize (Hbusy (j - 1)). replace (1 + (j - 1)) with j in Hbusy by lia.
      apply Hbusy. lia.
Qed.

Lemma versioned_filename_is_free_witness :
  size ({[ "out/run.xlsx" := File []; "out/run_v2.xlsx" := Dir ]} : filesystem) < 3
  /\ get_unique_filename 3
       {[ "out/run.xlsx" := File []; "out/run_v2.xlsx" := Dir ]}
       "out" "run" "xlsx"
     = Some "out/run_v3.xlsx".
Proof.
  split; [vm_compute; lia|].
  destruct (versioned_filename_is_free
              {[ "out/run.xlsx" := File []; "out/run_v2.xlsx" := Dir ]}
              3 "out" "run" "xlsx") as [[p [E _]] _].
  - vm_compute. lia.
  - rewrite E. vm_compute in E. symmetry. exact E.
Defined.

End NamingFacts.

(** ** Loading the per-run data files *)

Section LoaderFacts.
Import Float Py Loader.

Variable float_of_string : string -> option float.
Variable np_float32 : float -> float.
Variable fs : filesystem.
Variable path_A : string.

Local Abbreviation field_value := (Loader.field_value float_of_string).
Local Abbreviation py_float := (Loader.py_float float_of_string).
Local Abbreviation read_rows := (Loader.read_rows float_of_string).
Local Abbreviation read_rows_A := (Loader.read_rows_A float_of_string).
Local Abbreviation data_filename := (Loader.data_filename path_A).
Local Abbreviation data_filename_A := (Loader.data_filename_A path_A).
Local Abbreviation file_rows := (Loader.file_rows fs).
Local Abbreviation load_files_loop := (Loader.load_files_loop float_of_string fs path_A).
Local Abbreviation load_files_A_loop := (Loader.load_files_A_loop float_of_string fs path_A).
Local Abbreviation missing_report := (Loader.missing_report fs path_A).

(** Row [r] has a numeric field at position [k]. *)
Local Abbreviation numeric k := (fun r : row => is_Some (field_value k r)).
(** Value [v] is what field [k] of row [r] parses to. *)
Local Abbreviation parsed k := (fun (r : row) (v : float) => field_value k r = Some v).

Lemma field_value_read (k : nat) (r : row) (v : float) :
  field_value k r = Some v ->
  exists s, getitem r k = inr s /\ py_float s = inr v.
Proof.
  unfold Loader.field_value, getitem, Loader.py_float.
  destruct (r !! k) as [s|]; [|discriminate].
  intros E. exists s. now rewrite E.
Qed.

Lemma read_rows_ok (rows : list row) :
  Forall (fun r => numeric 0%nat r /\ numeric 1%nat r) rows ->
  forall A B : list float,
  exists va vb : list float,
    read_rows rows A B = inr (A ++ va, B ++ vb)
    /\ Forall2 (parsed 0%nat) rows va /\ Forall2 (parsed 1%nat) rows vb.
Proof.
  induction 1 as [|r rows [[a Ha] [b Hb]] _ IH]; intros A B.
  - exists [], []. rewrite !app_nil_r. repeat split; constructor.
  - destruct (field_value_read _ _ _ Ha) as [s0 [G0 F0]].
    destruct (field_value_read _ _ _ Hb) as [s1 [G1 F1]].
    destruct (IH (A ++ [a]) (B ++ [b])) as [va [vb [E [Fa Fb]]]].
    exists (a :: va), (b :: vb). split; [|split; constructor; assumption].
    simpl. rewrite G0. simpl. rewrite F0. simpl.
    rewrite G1. simpl. rewrite F1. simpl.
    rewrite E, <- !app_assoc. reflexivity.
Qed.

Lemma read_rows_A_ok (rows : list row) :
  Forall (numeric 0%nat) rows ->
  forall (A : list float) (a : nat),
  exists va : list float,
    read_rows_A rows A a = inr (A ++ va, a + List.length rows)
    /\ Forall2 (parsed 0%nat) rows va.
Proof.
  induction 1 as [|r rows [v Hv] _ IH]; intros A a.
  - exists []. rewrite app_nil_r, Nat.add_0_r. split; [reflexivity | constructor].
  - destruct (field_value_read _ _ _ Hv) as [s0 [G0 F0]].
    destruct (IH (A ++ [v]) (a + 1)) as [va [E Fa]].
    exists (v :: va). split; [|constructor; assumption].
    simpl. rewrite G0. simpl. rewrite F0. simpl.
    rewrite E, <- app_assoc. simpl. do 2 f_equal. lia.
Qed.

(** A row without a second field stops [read_rows]. *)
Lemma read_rows_short_row (s : string) (v : float) (rows : list row) (A B : list float) :
  float_of_string s = Some v ->
  read_rows ([s] :: rows) A B = inl IndexError.
Proof.
  intros E. simpl. unfold Loader.py_float. rewrite E. reflexivity.
Qed.

(** The outer loop of [load_files]: files that are not there are
    reported and skipped, the others are read in turn. *)
Lemma load_files_loop_ok (file_stem : string) (range : list nat) :
  (forall i rows, In i range ->
      fs !! data_filename file_stem i = Some (File rows) ->
      Forall (fun r => numeric 0%nat r /\ numeric 1%nat r) rows) ->
  forall (A B : list float) (out : list string),
  exists va vb : list float,
    load_files_loop file_stem range A B out
    = (out ++ missing_report range file_stem, inr (A ++ va, B ++ vb))
    /\ Forall2 (parsed 0%nat)
         (flat_map (fun i => file_rows (data_filename file_stem i)) range) va
    /\ Forall2 (parsed 1%nat)
         (flat_map (fun i => file_rows (data_filename file_stem i)) range) vb.
Proof.
  induction range as [|i range IH]; intros Hwf A B out.
  - exists [], []. unfold Loader.missing_report. simpl. rewrite !app_nil_r.
    repeat split; constructor.
  - assert (Hwf' : forall i rows, In i range ->
              fs !! data_filename file_stem i = Some (File rows) ->
              Forall (fun r => numeric 0%nat r /\ numeric 1%nat r) rows)
      by (intros j rows Hj; apply Hwf; now right).
    specialize (IH Hwf').
    unfold Loader.missing_report. simpl.
    unfold os_path_isfile, open, Loader.file_rows.
    destruct (fs !! data_filename file_stem i) as [[|rows]|] eqn:E; simpl.
    + destruct (IH A B (out ++ ["File does not exist: " +:+ data_filename file_stem i]))
        as [va [vb [El [Fa Fb]]]].
      exists va, vb. rewrite El, <- app_assoc. auto.
    + destruct (read_rows_ok rows (Hwf i rows (or_introl eq_refl) E) A B)
        as [va1 [vb1 [E1 [Fa1 Fb1]]]].
      rewrite E1.
      destruct (IH (A ++ va1) (B ++ vb1) out) as [va2 [vb2 [El [Fa2 Fb2]]]].
      exists (va1 ++ va2), (vb1 ++ vb2). rewrite El, <- !app_assoc.
      split; [reflexivity|]. split; apply Forall2_app; assumption.
    + destruct (IH A B (out ++ ["File does not exist: " +:+ data_filename file_stem i]))
        as [va [vb [El [Fa Fb]]]].
      exists va, vb. rewrite El, <- app_assoc. auto.
Qed.

(** The outer loop of [load_files_A] when every file is there. *)
Lemma load_files_A_loop_ok (file_stem_A : string) (range : list nat) :
  (forall i, In i range ->
      exists rows, fs !! data_filename_A file_stem_A i = Some (File rows)
                   /\ Forall (numeric 0%nat) rows) ->
  forall (A : list float) (out : list string),
  exists (va : list float) (out' : list string),
    load_files_A_loop file_stem_A range A out = (out ++ out', inr (A ++ va))
    /\ List.length out' = List.length range
    /\ Forall2 (parsed 0%nat)
         (flat_map (fun i => file_rows (data_filename_A file_stem_A i)) range) va.
Proof.
  induction range as [|i range IH]; intros Hwf A out.
  - exists [], []. simpl. rewrite !app_nil_r. repeat split; constructor.
  - destruct (Hwf i (or_introl eq_refl)) as [rows [E Hrows]].
    assert (Hwf' : forall i, In i range ->
              exists rows, fs !! data_filename_A file_stem_A i = Some (File rows)
                           /\ Forall (numeric 0%nat) rows)
      by (intros j Hj; apply Hwf; now right).
    specialize (IH Hwf').
    destruct (read_rows_A_ok rows Hrows A 0) as [va1 [E1 Fa1]].
    simpl. unfold open, Loader.file_rows. rewrite E. simpl. rewrite E1.
    match goal with
    | |- context [Loader.load_files_A_loop _ _ _ _ _ _ (out ++ [?m])] =>
        destruct (IH (A ++ va1) (out ++ [m])) as [va2 [out2 [El [Hlen Fa2]]]];
        exists (va1 ++ va2), (m :: out2)
    end.
    rewrite El, <- !app_assoc. simpl.
    split; [reflexivity|]. split; [now rewrite Hlen|].
    apply Forall2_app; assumption.
Qed.

Lemma load_files_A_loop_app (file_stem_A : string) (r1 r2 : list nat) :
  forall (A : list float) (out : list string),
    load_files_A_loop file_stem_A (r1 ++ r2) A out
    = match load_files_A_loop file_stem_A r1 A out with
      | (out', inr A') => load_files_A_loop file_stem_A r2 A' out'
      | (out', inl e) => (out', inl e)
      end.
Proof.
  induction r1 as [|i r1 IH]; intros A out; simpl; [reflexivity|].
  destruct (open fs (data_filename_A file_stem_A i)) as [e|rows]; simpl;
    [reflexivity|].
  destruct (read_rows_A rows A 0) as [e|[A' a]]; [reflexivity | apply IH].
Qed.

Lemma parsed_is_column (k : nat) (rows : list row) (va : list float) :
  Forall2 (parsed k) rows va ->
  Loader.is_column float_of_string np_float32 k rows (Loader.np_asarray np_float32 va).
Proof.
  intros H. unfold Loader.is_column, Loader.np_asarray. split.
  - rewrite List.length_map. symmetry. eapply Forall2_length, H.
  - induction H as [|r v rows va Hrv _ IH]; intros j r' Hj; [discriminate|].
    destruct j as [|j]; simpl in *.
    + injection Hj as <-. eauto.
    + now apply IH.
Qed.

Lemma In_seq_lt (n i : nat) : In i (seq 0 n) -> i < n.
Proof. intros H. apply in_seq in H. lia. Qed.

(** C4 (amended): [load_files] of the export script reports every file of
    the batch that is not there with a line naming it, skips it and goes
    on; when the rows of the files that are there have numeric first and
    second fields, it returns the two channels of exactly those rows, in
    file-then-row order.  [load_files_A] of the plotting scripts has no
    such test: it stops with [FileNotFoundError] at the first file that
    does not exist. *)
Theorem load_files_skips_missing (number_of_files : nat) (file_stem : string) :
  (forall i rows, i < number_of_files ->
      fs !! data_filename file_stem i = Some (File rows) ->
      Forall (fun r => numeric 0%nat r /\ numeric 1%nat r) rows) ->
  (exists arrA arrB : list float,
      Loader.load_files float_of_string np_float32 fs path_A number_of_files file_stem
      = (missing_report (seq 0 number_of_files) file_stem, inr (arrA, arrB))
      /\ (forall i, i < number_of_files ->
            os_path_isfile fs (data_filename file_stem i) = false ->
            In ("File does not exist: " +:+ data_filename file_stem i)
               (missing_report (seq 0 number_of_files) file_stem))
      /\ Loader.is_column float_of_string np_float32 0
           (Loader.batch_rows fs path_A number_of_files file_stem) arrA
      /\ Loader.is_column float_of_string np_float32 1
           (Loader.batch_rows fs path_A number_of_files file_stem) arrB)
  /\ (forall (file_stem_A : string) (i : nat),
        i < number_of_files ->
        fs !! data_filename_A file_stem_A i = None ->
        (forall j, j < i ->
           exists rows, fs !! data_filename_A file_stem_A j = Some (File rows)
                        /\ Forall (numeric 0%nat) rows) ->
        exists out : list string,
          Loader.load_files_A float_of_string np_float32 fs path_A file_stem_A
            number_of_files
          = (out, inl (FileNotFoundError (data_filename_A file_stem_A i)))).
Proof.
  intros Hwf. split.
  - destruct (load_files_loop_ok file_stem (seq 0 number_of_files)) with
      (A := @nil float) (B := @nil float) (out := @nil string)
      as [va [vb [E [Fa Fb]]]].
    { intros i rows Hi. apply Hwf. now apply In_seq_lt. }
    exists (Loader.np_asarray np_float32 va), (Loader.np_asarray np_float32 vb).
    split; [|split; [|split]].
    + unfold Loader.load_files. rewrite E. reflexivity.
    + intros i Hi Hmiss. unfold Loader.missing_report.
      apply List.in_map_iff. exists i. split; [reflexivity|].
      apply List.filter_In. split; [apply in_seq; lia | now rewrite Hmiss].
    + now apply parsed_is_column.
    + now apply parsed_is_column.
  - intros file_stem_A i Hi Hnone Hbefore.
    destruct (load_files_A_loop_ok file_stem_A (seq 0 i)) with
      (A := @nil float) (out := @nil string) as [va [out' [E _]]].
    { intros j Hj. apply Hbefore. now apply In_seq_lt. }
    exists out'. unfold Loader.load_files_A.
    replace number_of_files with (i + S (number_of_files - S i)) by lia.
    rewrite seq_app, load_files_A_loop_app, E. simpl.
    unfold open. rewrite Hnone. reflexivity.
Qed.

(** C8 (amended): when every file of the batch exists, [load_files_A]
    returns, for rows that each begin with a numeric field, an array with
    one element per row of the batch, element [j] being the first field
    of row [j] in file-then-row order, converted to float32; [load_files]
    does so for rows whose first two fields are numeric, and returns the
    second channel alongside the first. *)
Theorem loaders_return_parsed_rows
    (number_of_files : nat) (file_stem file_stem_A : string) :
  ((forall i, i < number_of_files ->
      exists rows, fs !! data_filename_A file_stem_A i = Some (File rows)
                   /\ Forall (numeric 0%nat) rows) ->
   exists (out : list string) (arr : list float),
     Loader.load_files_A float_of_string np_float32 fs path_A file_stem_A
       number_of_files
     = (out, inr arr)
     /\ Loader.is_column float_of_string np_float32 0
          (Loader.batch_rows_A fs path_A file_stem_A number_of_files) arr)
  /\ ((forall i, i < number_of_files ->
         exists rows, fs !! data_filename file_stem i = Some (File rows)
                      /\ Forall (fun r => numeric 0%nat r /\ numeric 1%nat r) rows) ->
      exists (out : list string) (arrA arrB : list float),
        Loader.load_files float_of_string np_float32 fs path_A number_of_files file_stem
        = (out, inr (arrA, arrB))
        /\ Loader.is_column float_of_string np_float32 0
             (Loader.batch_rows fs path_A number_of_files file_stem) arrA
        /\ Loader.is_column float_of_string np_float32 1
             (Loader.batch_rows fs path_A number_of_files file_stem) arrB).
Proof.
  split; intros Hall.
  - destruct (load_files_A_loop_ok file_stem_A (seq 0 number_of_files)) with
      (A := @nil float) (out := @nil string) as [va [out' [E [_ Fa]]]].
    { intros i Hi. apply Hall. now apply In_seq_lt. }
    exists out', (Loader.np_asarray np_float32 va). split.
    + unfold Loader.load_files_A. rewrite E. reflexivity.
    + now apply parsed_is_column.
  - destruct (load_files_loop_ok file_stem (seq 0 number_of_files)) with
      (A := @nil float) (B := @nil float) (out := @nil string)
      as [va [vb [E [Fa Fb]]]].
    { intros i rows Hi Ei. destruct (Hall i (In_seq_lt _ _ Hi)) as [rows' [Ei' Hr]].
      rewrite Ei in Ei'. injection Ei' as <-. exact Hr. }
    eexists _, (Loader.np_asarray np_float32 va), (Loader.np_asarray np_float32 vb).
    split; [|split].
    + unfold Loader.load_files. rewrite E. reflexivity.
    + now apply parsed_is_column.
    + now apply parsed_is_column.
Qed.

End LoaderFacts.

(** ** The loaders on concrete directories *)

Section LoaderExamples.
Import Float Py Loader.

(** [load_files_A] on a batch of two files of which the second is missing:
    the first file is loaded, nothing is printed about the second, and the
    call ends in [FileNotFoundError] instead of returning the rows read. *)
Lemma load_files_A_aborts_on_missing_file :
  load_files_A float_of_digits (fun v => v) one_channel_fs "data" "run" 2
  = (["Loaded data/run, which contains 1 rows."],
     inl (FileNotFoundError "data/run_02"))
  /\ forall (out : list string) (arr : list float),
       load_files_A float_of_digits (fun v => v) one_channel_fs "data" "run" 2
       <> (out, inr arr).
Proof.
  assert (E : load_files_A float_of_digits (fun v => v) one_channel_fs "data" "run" 2
              = (["Loaded data/run, which contains 1 rows."],
                 inl (FileNotFoundError "data/run_02")))
    by (vm_compute; reflexivity).
  split; [exact E|]. intros out arr H. rewrite E in H. discriminate H.
Qed.

Lemma load_files_skips_missing_witness :
  exists arrA arrB : list float,
    load_files float_of_digits (fun v => v) two_channel_fs "data" 2 "run"
    = (["File does not exist: data/run_02"], inr (arrA, arrB))
    /\ is_column float_of_digits (fun v => v) 0 [["7"; "8"]] arrA
    /\ is_column float_of_digits (fun v => v) 1 [["7"; "8"]] arrB.
Proof.
  destruct (load_files_skips_missing float_of_digits (fun v => v)
              two_channel_fs "data" 2 "run") as [[arrA [arrB [E [_ [HA HB]]]]] _].
  - intros i rows Hi Ei. destruct i as [|[|i]]; [| |lia].
    + vm_compute in Ei. injection Ei as <-.
      constructor; [|constructor]. split; eexists; reflexivity.
    + vm_compute in Ei. discriminate Ei.
  - exists arrA, arrB. split; [exact E|]. split; [exact HA | exact HB].
Defined.

(** [load_files] on a file whose only row has one numeric field: the row
    begins with a number, yet the call ends in [IndexError]. *)
Lemma load_files_needs_second_field :
  Forall (fun r => is_Some (field_value float_of_digits 0 r))
    (batch_rows one_channel_fs "data" 1 "run")
  /\ one_channel_fs !! data_filename "data" "run" 0 = Some (File [["7"]])
  /\ load_files float_of_digits (fun v => v) one_channel_fs "data" 1 "run"
     = ([], inl IndexError).
Proof.
  split; [|split].
  - constructor; [|constructor]. eexists. reflexivity.
  - vm_compute. reflexivity.
  - vm_compute. reflexivity.
Qed.

Lemma loaders_return_parsed_rows_witness :
  exists (out : list string) (arr : list float),
    load_files_A float_of_digits (fun v => v) one_channel_fs "data" "run" 1
    = (out, inr arr)
    /\ is_column float_of_digits (fun v => v) 0
         (batch_rows_A one_channel_fs "data" "run" 1) arr.
Proof.
  apply (proj1 (loaders_return_parsed_rows float_of_digits (fun v => v)
                  one_channel_fs "data" 1 "run" "run")).
  intros i Hi. destruct i as [|i]; [|lia].
  exists [["7"]]. split; [vm_compute; reflexivity|].
  constructor; [|constructor]. eexists. reflexivity.
Defined.

End LoaderExamples.

(** * Further properties of the scripts *)

(** ** The loaders: shapes, reports and failures *)

Section LoaderShapes.
Import Float Py Loader LoaderErrors.

Variable float_of_string : string -> option float.
Variable np_float32 : float -> float.
Variable fs : filesystem.
Variable path_A : string.

Local Abbreviation field_value := (Loader.field_value float_of_string).
Local Abbreviation read_rows := (Loader.read_rows float_of_string).
Local Abbreviation read_rows_A := (Loader.read_rows_A float_of_string).
Local Abbreviation data_filename := (Loader.data_filename path_A).
Local Abbreviation data_filename_A := (Loader.data_filename_A path_A).
Local Abbreviation file_rows := (Loader.file_rows fs).
Local Abbreviation load_files_loop := (Loader.load_files_loop float_of_string fs path_A).
Local Abbreviation load_files_A_loop := (Loader.load_files_A_loop float_of_string fs path_A).
Local Abbreviation load_files := (Loader.load_files float_of_string np_float32 fs path_A).
Local Abbreviation load_files_A := (Loader.load_files_A float_of_string np_float32 fs path_A).
Local Abbreviation numeric k := (fun r : row => is_Some (field_value k r)).

Lemma read_rows_lengths (rows : list row) :
  forall A B A' B' : list float,
    read_rows rows A B = inr (A', B') ->
    List.length A' = (List.length A + List.length rows)%nat
    /\ List.length B' = (List.length B + List.length rows)%nat.
Proof.
  induction rows as [|r rows IH]; intros A B A' B'; simpl.
  - intros E. injection E as <- <-. lia.
  - destruct (getitem r 0) as [e|s0]; simpl; [discriminate|].
    destruct (Loader.py_float float_of_string s0) as [e|a]; simpl; [discriminate|].
    destruct (getitem r 1) as [e|s1]; simpl; [discriminate|].
    destruct (Loader.py_float float_of_string s1) as [e|b]; simpl; [discriminate|].
    intros E. apply IH in E. rewrite !List.length_app in E. simpl in E. lia.
Qed.

Lemma load_files_loop_lengths (file_stem : string) (range : list nat) :
  forall (A B : list float) (out out' : list string) (A' B' : list float),
    load_files_loop file_stem range A B out = (out', inr (A', B')) ->
    List.length A'
    = (List.length A
       + List.length (flat_map (fun i => file_rows (data_filename file_stem i)) range))%nat
    /\ List.length B'
       = (List.length B
          + List.length (flat_map (fun i => file_rows (data_filename file_stem i)) range))%nat.
Proof.
  induction range as [|i range IH]; intros A B out out' A' B'; simpl.
  - intros E. injection E as _ <- <-. lia.
  - unfold os_path_isfile, open.
    replace (file_rows (data_filename file_stem i))
      with (match fs !! data_filename file_stem i with
            | Some (File rows) => rows
            | _ => []
            end) by reflexivity.
    destruct (fs !! data_filename file_stem i) as [[|rows]|]; simpl.
    + apply IH.
    + destruct (read_rows rows A B) as [e|[A1 B1]] eqn:E1; [discriminate|].
      apply read_rows_lengths in E1. intros E. apply IH in E.
      rewrite List.length_app. lia.
    + apply IH.
Qed.

(** X1: whenever [load_files] returns its two arrays, both have one
    element per row of the files of the batch that exist: the two
    channels are always of the same length. *)
Theorem load_files_channels_same_length
    (number_of_files : nat) (file_stem : string)
    (out : list string) (arrA arrB : list float) :
  load_files number_of_files file_stem = (out, inr (arrA, arrB)) ->
  List.length arrA = List.length (batch_rows fs path_A number_of_files file_stem)
  /\ List.length arrB = List.length arrA.
Proof.
  unfold Loader.load_files.
  destruct (load_files_loop file_stem (seq 0 number_of_files) [] [] [])
    as [out' [e|[A B]]] eqn:E; [discriminate|].
  intros H. injection H as _ <- <-.
  apply load_files_loop_lengths in E. unfold np_asarray, batch_rows.
  rewrite !List.length_map. simpl in E. lia.
Qed.

Lemma read_rows_A_counts (rows : list row) :
  forall (A : list float) (a : nat) (A' : list float) (a' : nat),
    read_rows_A rows A a = inr (A', a') ->
    a' = (a + List.length rows)%nat
    /\ List.length A' = (List.length A + List.length rows)%nat.
Proof.
  induction rows as [|r rows IH]; intros A a A' a'; simpl.
  - intros E. injection E as <- <-. lia.
  - destruct (getitem r 0) as [e|s0]; simpl; [discriminate|].
    destruct (Loader.py_float float_of_string s0) as [e|v]; simpl; [discriminate|].
    intros E. apply IH in E. rewrite List.length_app in E. simpl in E. lia.
Qed.

Lemma length_flat_map_sum {A B : Type} (f : A -> list B) (l : list A) :
  List.length (flat_map f l) = list_sum (List.map (fun x => List.length (f x)) l).
Proof.
  induction l as [|x l IH]; simpl; [reflexivity|].
  now rewrite List.length_app, IH.
Qed.

(** What [load_files_A] has printed and read when its loop ends normally. *)
Lemma load_files_A_loop_report (file_stem_A : string) (range : list nat) :
  forall (A : list float) (out out' : list string) (A' : list float),
    load_files_A_loop file_stem_A range A out = (out', inr A') ->
    out' = out ++ List.map (loaded_line fs path_A file_stem_A) range
    /\ List.length A'
       = (List.length A
          + list_sum (List.map
               (fun i => List.length (file_rows (data_filename_A file_stem_A i)))
               range))%nat.
Proof.
  induction range as [|i range IH]; intros A out out' A'; simpl.
  - intros E. injection E as <- <-. rewrite app_nil_r. split; [reflexivity | lia].
  - unfold open, loaded_line.
    replace (file_rows (data_filename_A file_stem_A i))
      with (match fs !! data_filename_A file_stem_A i with
            | Some (File rows) => rows
            | _ => []
            end) by reflexivity.
    destruct (fs !! data_filename_A file_stem_A i) as [[|rows]|]; simpl;
      try discriminate.
    destruct (read_rows_A rows A 0) as [e|[A1 a1]] eqn:E1; [discriminate|].
    apply read_rows_A_counts in E1 as [-> HA1]. intros E.
    apply IH in E as [-> HA']. rewrite <- app_assoc. simpl.
    split; [reflexivity | lia].
Qed.

(** X2: when every file of the batch exists and each row begins with a
    numeric field, [load_files_A] prints exactly one line per file, in
    batch order, naming the file and the number of rows it holds, and the
    row counts it printed add up to the length of the array it returns. *)
Theorem load_files_A_reports_row_counts
    (number_of_files : nat) (file_stem_A : string) :
  (forall i, i < number_of_files ->
     exists rows, fs !! data_filename_A file_stem_A i = Some (File rows)
                  /\ Forall (numeric 0%nat) rows) ->
  exists arr : list float,
    load_files_A file_stem_A number_of_files
    = (List.map (loaded_line fs path_A file_stem_A) (seq 0 number_of_files), inr arr)
    /\ List.length arr
       = list_sum (List.map
            (fun i => List.length (file_rows (data_filename_A file_stem_A i)))
            (seq 0 number_of_files)).
Proof.
  intros Hall.
  destruct (load_files_A_loop_ok float_of_string fs path_A file_stem_A
              (seq 0 number_of_files)) with (A := @nil float) (out := @nil string)
    as [va [out' [E _]]].
  { intros i Hi. apply Hall. apply in_seq in Hi. lia. }
  pose proof (load_files_A_loop_report _ _ _ _ _ _ E) as [Hout Hlen].
  exists (np_asarray np_float32 (@nil float ++ va)).
  unfold Loader.load_files_A. rewrite E, Hout. simpl. split; [reflexivity|].
  unfold np_asarray. rewrite List.length_map. exact Hlen.
Qed.

(** The row loops stop at the first row that lacks a numeric field. *)
Lemma read_rows_A_bad (good : list row) (bad : row) (rest : list row) :
  Forall (numeric 0%nat) good ->
  field_value 0 bad = None ->
  forall (A : list float) (a : nat),
    read_rows_A (good ++ bad :: rest) A a = inl (field_error 0 bad).
Proof.
  intros Hgood Hbad. induction Hgood as [|r good [v Hv] _ IH]; intros A a; simpl.
  - unfold Loader.field_value in Hbad. unfold getitem, field_error.
    destruct (bad !! 0) as [s|]; simpl; [|reflexivity].
    unfold Loader.py_float. now rewrite Hbad.
  - destruct (field_value_read float_of_string _ _ _ Hv) as [s0 [G0 F0]].
    rewrite G0. simpl. rewrite F0. simpl. apply IH.
Qed.

Lemma read_rows_bad (good : list row) (bad : row) (rest : list row) :
  Forall (fun r => numeric 0%nat r /\ numeric 1%nat r) good ->
  field_value 0 bad = None \/ field_value 1 bad = None ->
  forall A B : list float,
    read_rows (good ++ bad :: rest) A B = inl (row_error float_of_string bad).
Proof.
  intros Hgood Hbad.
  induction Hgood as [|r good [[a Ha] [b Hb]] _ IH]; intros A B; simpl.
  - unfold row_error.
    destruct (field_value 0 bad) as [v0|] eqn:E0.
    + destruct Hbad as [Hbad|Hbad]; [discriminate|].
      destruct (field_value_read float_of_string _ _ _ E0) as [s0 [G0 F0]].
      rewrite G0. simpl. rewrite F0. simpl.
      unfold Loader.field_value in Hbad. unfold getitem, field_error.
      destruct (bad !! 1) as [s|]; simpl; [|reflexivity].
      unfold Loader.py_float. now rewrite Hbad.
    + unfold Loader.field_value in E0. unfold getitem, field_error.
      destruct (bad !! 0) as [s|]; simpl; [|reflexivity].
      unfold Loader.py_float. now rewrite E0.
  - destruct (field_value_read float_of_string _ _ _ Ha) as [s0 [G0 F0]].
    destruct (field_value_read float_of_string _ _ _ Hb) as [s1 [G1 F1]].
    rewrite G0. simpl. rewrite F0. simpl. rewrite G1. simpl. rewrite F1. simpl.
    apply IH.
Qed.

Lemma load_files_loop_app (file_stem : string) (r1 r2 : list nat) :
  forall (A B : list float) (out : list string),
    load_files_loop file_stem (r1 ++ r2) A B out
    = match load_files_loop file_stem r1 A B out with
      | (out', inr (A', B')) => load_files_loop file_stem r2 A' B' out'
      | (out', inl e) => (out', inl e)
      end.
Proof.
  induction r1 as [|i r1 IH]; intros A B out; simpl; [reflexivity|].
  destruct (negb (os_path_isfile fs (data_filename file_stem i))); [apply IH|].
  destruct (open fs (data_filename file_stem i)) as [e|rows]; simpl;
    [reflexivity|].
  destruct (read_rows rows A B) as [e|[A' B']]; [reflexivity | apply IH].
Qed.

Lemma seq_split (n i : nat) :
  i < n -> seq 0 n = seq 0 i ++ i :: seq (S i) (n - S i).
Proof.
  intros Hi. replace n with (i + S (n - S i)) at 1 by lia.
  now rewrite seq_app.
Qed.

(** X3: [load_files_A] stops at the first row that does not begin with a
    numeric field: when the earlier files are sound and file [i] holds
    such a row after sound ones, the call ends in [IndexError] if the row
    has no field at all and in [ValueError] on the text of its first field
    otherwise, after the report lines of the [i] files read before; no
    array is returned. *)
Theorem load_files_A_stops_at_bad_row
    (number_of_files : nat) (file_stem_A : string) (i : nat)
    (good : list row) (bad : row) (rest : list row) :
  i < number_of_files ->
  (forall j, j < i ->
     exists rows, fs !! data_filename_A file_stem_A j = Some (File rows)
                  /\ Forall (numeric 0%nat) rows) ->
  fs !! data_filename_A file_stem_A i = Some (File (good ++ bad :: rest)) ->
  Forall (numeric 0%nat) good ->
  field_value 0 bad = None ->
  load_files_A file_stem_A number_of_files
  = (List.map (loaded_line fs path_A file_stem_A) (seq 0 i),
     inl (field_error 0 bad)).
Proof.
  intros Hi Hbefore Hfile Hgood Hbad.
  destruct (load_files_A_loop_ok float_of_string fs path_A file_stem_A (seq 0 i))
    with (A := @nil float) (out := @nil string) as [va [out' [E _]]].
  { intros j Hj. apply Hbefore. apply in_seq in Hj. lia. }
  pose proof (load_files_A_loop_report _ _ _ _ _ _ E) as [Hout _].
  unfold Loader.load_files_A.
  rewrite (seq_split _ _ Hi), load_files_A_loop_app, E. simpl.
  unfold open. rewrite Hfile. simpl.
  rewrite (read_rows_A_bad good bad rest Hgood Hbad).
  simpl in Hout. now rewrite Hout.
Qed.

(** X4: [load_files] stops at the first row that lacks one of its two
    numeric fields: the call ends in the exception of the first field at
    fault ([IndexError] where the row is too short, [ValueError] on the
    text otherwise), after the lines reporting the files missing before
    file [i]; neither channel is returned. *)
Theorem load_files_stops_at_bad_row
    (number_of_files : nat) (file_stem : string) (i : nat)
    (good : list row) (bad : row) (rest : list row) :
  i < number_of_files ->
  (forall j rows, j < i ->
     fs !! data_filename file_stem j = Some (File rows) ->
     Forall (fun r => numeric 0%nat r /\ numeric 1%nat r) rows) ->
  fs !! data_filename file_stem i = Some (File (good ++ bad :: rest)) ->
  Forall (fun r => numeric 0%nat r /\ numeric 1%nat r) good ->
  field_value 0 bad = None \/ field_value 1 bad = None ->
  load_files number_of_files file_stem
  = (missing_report fs path_A (seq 0 i) file_stem,
     inl (row_error float_of_string bad)).
Proof.
  intros Hi Hbefore Hfile Hgood Hbad.
  destruct (load_files_loop_ok float_of_string fs path_A file_stem (seq 0 i))
    with (A := @nil float) (B := @nil float) (out := @nil string)
    as [va [vb [E _]]].
  { intros j rows Hj. apply Hbefore. apply in_seq in Hj. lia. }
  unfold Loader.load_files.
  rewrite (seq_split _ _ Hi), load_files_loop_app, E. simpl.
  unfold os_path_isfile, open. rewrite Hfile. simpl.
  now rewrite (read_rows_bad good bad rest Hgood Hbad).
Qed.

(** X5: a batch none of whose files exists is not an error for
    [load_files]: it prints one line per file name and returns two empty
    arrays, so the count of events it yields is 0 at every threshold. *)
Theorem load_files_all_missing (number_of_files : nat) (file_stem : string) :
  (forall i, i < number_of_files ->
     os_path_isfile fs (data_filename file_stem i) = false) ->
  load_files number_of_files file_stem
  = (List.map (fun i => "File does not exist: " +:+ data_filename file_stem i)
       (seq 0 number_of_files),
     inr ([], []))
  /\ forall arrA arrB out t,
       load_files number_of_files file_stem = (out, inr (arrA, arrB)) ->
       Threshold.count_events_above_threshold arrA t = 0%Z.
Proof.
  intros Hmiss.
  assert (L : forall (range : list nat) (A B : list float) (out : list string),
             (forall i, In i range ->
                os_path_isfile fs (data_filename file_stem i) = false) ->
             load_files_loop file_stem range A B out
             = (out ++ List.map
                         (fun i => "File does not exist: " +:+ data_filename file_stem i)
                         range,
                inr (A, B))).
  { induction range as [|i range IH]; intros A B out Hr; simpl.
    - now rewrite app_nil_r.
    - rewrite (Hr i (or_introl eq_refl)). simpl.
      rewrite IH by (intros j Hj; apply Hr; now right).
      now rewrite <- app_assoc. }
  assert (E : load_files number_of_files file_stem
              = (List.map
                   (fun i => "File does not exist: " +:+ data_filename file_stem i)
                   (seq 0 number_of_files),
                 inr ([], []))).
  { unfold Loader.load_files. rewrite L; [reflexivity|].
    intros i Hi. apply Hmiss. apply in_seq in Hi. lia. }
  split; [exact E|].
  intros arrA arrB out t H. rewrite E in H. injection H as _ <- _. reflexivity.
Qed.

End LoaderShapes.

Section LoaderShapesExamples.
Import Float Py Loader.

Lemma load_files_channels_same_length_witness :
  List.length [of_Z 7] = List.length (batch_rows two_channel_fs "data" 2 "run")
  /\ List.length [of_Z 8] = List.length [of_Z 7].
Proof.
  apply (load_files_channels_same_length float_of_digits (fun v => v)
           two_channel_fs "data" 2 "run" ["File does not exist: data/run_02"]).
  vm_compute. reflexivity.
Defined.

Import LoaderErrors.

Lemma load_files_A_reports_row_counts_witness :
  exists arr : list float,
    load_files_A float_of_digits (fun v => v) one_channel_fs "data" "run" 1
    = (["Loaded data/run, which contains 1 rows."], inr arr)
    /\ List.length arr = 1.
Proof.
  apply (load_files_A_reports_row_counts float_of_digits (fun v => v)
           one_channel_fs "data" 1 "run").
  intros i Hi. destruct i as [|i]; [|lia].
  exists [["7"]]. split; [vm_compute; reflexivity|].
  constructor; [|constructor]. eexists. reflexivity.
Defined.

Lemma load_files_A_stops_at_bad_row_witness :
  load_files_A float_of_digits (fun v => v) text_row_fs "data" "run" 1
  = ([], inl (ValueError "x")).
Proof.
  apply (load_files_A_stops_at_bad_row float_of_digits (fun v => v)
           text_row_fs "data" 1 "run" 0 [["7"]] ["x"] [["9"]]).
  - lia.
  - intros j Hj. lia.
  - vm_compute. reflexivity.
  - constructor; [|constructor]. eexists. reflexivity.
  - reflexivity.
Defined.

Lemma load_files_stops_at_bad_row_witness :
  load_files float_of_digits (fun v => v) short_row_fs "data" 1 "run"
  = ([], inl IndexError).
Proof.
  apply (load_files_stops_at_bad_row float_of_digits (fun v => v)
           short_row_fs "data" 1 "run" 0 [["7"; "8"]] ["9"] []).
  - lia.
  - intros j rows Hj. lia.
  - vm_compute. reflexivity.
  - constructor; [|constructor]. split; eexists; reflexivity.
  - right. reflexivity.
Defined.

Lemma load_files_all_missing_witness :
  load_files float_of_digits (fun v => v) ∅ "data" 2 "run"
  = (["File does not exist: data/run"; "File does not exist: data/run_02"],
     inr ([], [])).
Proof.
  apply (load_files_all_missing float_of_digits (fun v => v) ∅ "data" 2 "run").
  intros i Hi. destruct i as [|[|i]]; [| |lia]; vm_compute; reflexivity.
Defined.

End LoaderShapesExamples.

(** ** The file names of a batch *)

Section BatchNames.
Import Py Loader.

Lemma str_not_zero_prefixed (a b : nat) : String "0" (str a) <> str b.
Proof.
  unfold str. intros E.
  assert (Hab : a = b).
  { pose proof (f_equal NilEmpty.uint_of_string E) as U.
    simpl in U. rewrite !NilEmpty.usu in U. simpl in U. injection U as U.
    apply (f_equal Nat.of_uint) in U.
    change (Nat.of_uint (Decimal.D0 (Nat.to_uint a)))
      with (Nat.of_uint (Nat.to_uint a)) in U.
    now rewrite !DecimalNat.Unsigned.of_to in U. }
  subst b. apply (f_equal String.length) in E. simpl in E. lia.
Qed.

Lemma fmt_02d_inj (a b : nat) : fmt_02d a = fmt_02d b -> a = b.
Proof.
  unfold fmt_02d.
  destruct (String.length (str a) <? 2)%nat, (String.length (str b) <? 2)%nat;
    simpl; intros E.
  - injection E as E. now apply str_inj.
  - now apply str_not_zero_prefixed in E.
  - symmetry in E. now apply str_not_zero_prefixed in E.
  - now apply str_inj.
Qed.

Lemma append_not_longer (s t : string) (c : ascii) : s <> s +:+ String c t.
Proof.
  intros E. apply (f_equal String.length) in E.
  rewrite string_length_append in E. simpl in E. lia.
Qed.

Lemma starts_with_sep_stem (stem t : string) :
  starts_with_sep stem = starts_with_sep (stem +:+ String "_" t).
Proof. destruct stem; reflexivity. Qed.

Lemma data_filename_inj (path_A file_stem : string) (i j : nat) :
  data_filename path_A file_stem i = data_filename path_A file_stem j -> i = j.
Proof.
  unfold data_filename.
  destruct (Nat.ltb_spec 0 i) as [Hi|Hi], (Nat.ltb_spec 0 j) as [Hj|Hj]; intros E.
  - apply os_path_join_cancel in E;
      [|apply (starts_with_sep_base file_stem _ _ "_" "_"); reflexivity].
    apply append_cancel_l in E. injection E as E.
    apply fmt_02d_inj in E. lia.
  - symmetry in E. apply os_path_join_cancel in E; [|apply starts_with_sep_stem].
    now apply append_not_longer in E.
  - apply os_path_join_cancel in E; [|apply starts_with_sep_stem].
    now apply append_not_longer in E.
  - lia.
Qed.

Lemma data_filename_A_inj (path_A file_stem_A : string) (i j : nat) :
  data_filename_A path_A file_stem_A i = data_filename_A path_A file_stem_A j -> i = j.
Proof.
  unfold data_filename_A.
  destruct (Nat.eqb_spec i 0) as [Hi|Hi], (Nat.eqb_spec j 0) as [Hj|Hj]; intros E.
  - lia.
  - apply os_path_join_cancel in E; [|apply starts_with_sep_stem].
    now apply append_not_longer in E.
  - symmetry in E. apply os_path_join_cancel in E; [|apply starts_with_sep_stem].
    now apply append_not_longer in E.
  - apply os_path_join_cancel in E;
      [|apply (starts_with_sep_base file_stem_A _ _ "_" "_"); reflexivity].
    apply append_cancel_l in E. injection E as E.
    apply fmt_02d_inj in E. lia.
Qed.

(** X6: the file names of a batch are pairwise distinct, under either
    naming scheme and for every directory, stem and batch size: the
    unnumbered first name never coincides with a numbered one, and the
    zero-padded numbers never collide, so no file is read twice. *)
Theorem batch_filenames_distinct (path_A file_stem : string) (number_of_files : nat) :
  List.NoDup (List.map (data_filename path_A file_stem) (seq 0 number_of_files))
  /\ List.NoDup (List.map (data_filename_A path_A file_stem) (seq 0 number_of_files)).
Proof.
  split; apply Finite.Injective_map_NoDup; try apply List.seq_NoDup.
  - intros i j. apply data_filename_inj.
  - intros i j. apply data_filename_A_inj.
Qed.

End BatchNames.

(** ** Repeated runs and the versioned names *)

Section RepeatedRuns.
Import Py Naming PlotScript.

Lemma get_unique_filename_free
    (fs : filesystem) (fuel : nat) (path base ext : string) :
  size fs < fuel ->
  exists p, get_unique_filename fuel fs path base ext = Some p /\ fs !! p = None.
Proof.
  intros Hfuel.
  destruct (first_free (unique_candidate path base ext)
              (unique_candidate_inj path base ext)
              (size fs) fs 1 (le_n _)) as [k [Hk [Hfree Hbusy]]].
  exists (unique_candidate path base ext (1 + k)). split; [|exact Hfree].
  unfold get_unique_filename.
  apply (unique_loop_finds fs path base ext k fuel 1);
    [lia | lia | exact Hfree | exact Hbusy].
Qed.

Lemma to_excel_writes (fs : filesystem) (p : string) (sheet : list row) :
  parent_is_dir fs p = true -> fs !! p <> Some Dir ->
  to_excel fs p sheet = inr (<[p := File sheet]> fs).
Proof.
  intros Hdir Hp. unfold to_excel. rewrite Hdir. simpl.
  destruct (fs !! p) as [[|rows]|]; [contradiction | reflexivity | reflexivity].
Qed.

Lemma to_excel_no_directory (fs : filesystem) (p : string) (sheet : list row) :
  parent_is_dir fs p = false ->
  exists text : string, to_excel fs p sheet = inl (OSError text).
Proof. intros Hdir. unfold to_excel. rewrite Hdir. simpl. eauto. Qed.

(** X7: two runs of the export in a row never share an output path.  The
    first call of [get_unique_filename] returns a free path; if its
    directory is missing the export raises [OSError] and writes nothing;
    otherwise the export is written there, and the second call of
    [get_unique_filename], made after it, returns a different path that
    was free from the start, so after the second run, whether its export
    is written or raises, the first export and every earlier file are
    still there, unchanged. *)
Theorem export_twice_keeps_both
    (fs : filesystem) (fuel : nat) (path base_filename extension : string)
    (sheet1 sheet2 : list row) :
  S (size fs) < fuel ->
  exists p1 : string,
    get_unique_filename fuel fs path base_filename extension = Some p1
    /\ fs !! p1 = None
    /\ (parent_is_dir fs p1 = false ->
        exists text : string, to_excel fs p1 sheet1 = inl (OSError text))
    /\ (parent_is_dir fs p1 = true ->
        exists (fs1 : filesystem) (p2 : string),
          to_excel fs p1 sheet1 = inr fs1
          /\ get_unique_filename fuel fs1 path base_filename extension = Some p2
          /\ p1 <> p2
          /\ fs !! p2 = None
          /\ fs_after fs1 (to_excel fs1 p2 sheet2) !! p1 = Some (File sheet1)
          /\ fs ⊆ fs_after fs1 (to_excel fs1 p2 sheet2)
          /\ (parent_is_dir fs1 p2 = true ->
              to_excel fs1 p2 sheet2 = inr (<[p2 := File sheet2]> fs1))).
Proof.
  intros Hfuel.
  destruct (get_unique_filename_free fs fuel path base_filename extension)
    as [p1 [E1 F1]]; [lia|].
  exists p1. split; [exact E1|]. split; [exact F1|]. split.
  { apply to_excel_no_directory. }
  intros Hdir1.
  destruct (get_unique_filename_free (<[p1 := File sheet1]> fs) fuel
              path base_filename extension) as [p2 [E2 F2]].
  { rewrite map_size_insert_None by exact F1. lia. }
  assert (Hne : p1 <> p2).
  { intros ->. now rewrite lookup_insert_eq in F2. }
  exists (<[p1 := File sheet1]> fs), p2.
  split; [apply to_excel_writes; [exact Hdir1 | now rewrite F1]|].
  split; [exact E2|]. split; [exact Hne|].
  pose proof F2 as F2'. rewrite lookup_insert_ne in F2' by exact Hne.
  split; [exact F2'|].
  assert (Hsub : fs ⊆ <[p1 := File sheet1]> fs) by now apply insert_subseteq.
  split; [|split].
  - unfold to_excel, fs_after.
    destruct (negb (parent_is_dir _ p2)); [apply lookup_insert_eq|].
    rewrite F2. rewrite lookup_insert_ne by congruence. apply lookup_insert_eq.
  - unfold to_excel, fs_after.
    destruct (negb (parent_is_dir _ p2)); [exact Hsub|].
    rewrite F2. etrans; [exact Hsub|]. now apply insert_subseteq.
  - intros Hdir2. apply to_excel_writes; [exact Hdir2 | now rewrite F2].
Qed.

Lemma export_twice_keeps_both_witness :
  exists p1 p2 : string,
    get_unique_filename 3 {[ "out" := Dir ]} "out" "run" "xlsx" = Some p1
    /\ get_unique_filename 3 (<[p1 := File [["a"]]]> {[ "out" := Dir ]})
         "out" "run" "xlsx" = Some p2
    /\ p1 <> p2.
Proof.
  destruct (export_twice_keeps_both {[ "out" := Dir ]} 3 "out" "run" "xlsx"
              [["a"]] [["b"]]) as [p1 [E1 [_ [_ H]]]].
  - vm_compute. lia.
  - assert (Ep : p1 = "out/run.xlsx").
    { vm_compute in E1. now injection E1 as <-. }
    destruct H as [fs1 [p2 [W [E2 [Hne _]]]]].
    + rewrite Ep. reflexivity.
    + exists p1, p2. split; [exact E1|]. split; [|exact Hne].
      rewrite <- E2. f_equal. rewrite Ep in W |- *.
      vm_compute in W. injection W as <-. reflexivity.
Defined.

Lemma string_append_assoc (s t u : string) : (s +:+ t) +:+ u = s +:+ t +:+ u.
Proof.
  induction s as [|c s IH]; [reflexivity|].
  change (String c ((s +:+ t) +:+ u) = String c (s +:+ t +:+ u)).
  now rewrite IH.
Qed.

Lemma string_append_nil_r (s : string) : s +:+ "" = s.
Proof.
  induction s as [|c s IH]; [reflexivity|].
  change (String c (s +:+ "") = String c s). now rewrite IH.
Qed.





End RepeatedRuns.

(** ** The Hill curve away from the origin *)

Section HillShape.
Import Hill.
Local Open Scope R_scope.

Lemma hill_equation_value (x Vmax Kd n xn kn : R) :
  power x n = Some xn -> power Kd n = Some kn -> 0 < xn -> 0 < kn ->
  hill_equation x Vmax Kd n = Some (Vmax * xn / (kn + xn)).
Proof.
  intros Ex Ek Hx Hk. unfold hill_equation. rewrite Ex, Ek.
  apply divide_nonzero. lra.
Qed.

(** X9: for a positive concentration, a positive midpoint and a positive
    asymptote, the curve has a value for every slope [n] (positive, zero
    or negative) and that value lies strictly between 0 and the asymptote
    [Vmax]: the asymptote is approached but never reached. *)
Theorem hill_equation_between_zero_and_Vmax (x Vmax Kd n : R) :
  0 < x -> 0 < Kd -> 0 < Vmax ->
  exists y : R, hill_equation x Vmax Kd n = Some y /\ 0 < y < Vmax.
Proof.
  intros Hx HKd HV.
  destruct (power_pos_base x n Hx) as [xn [Ex Hxn]].
  destruct (power_pos_base Kd n HKd) as [kn [Ek Hkn]].
  exists (Vmax * xn / (kn + xn)).
  split; [now apply hill_equation_value|].
  assert (Hd : 0 < kn + xn) by lra.
  split.
  - apply Rdiv_lt_0_compat; [|exact Hd]. now apply Rmult_lt_0_compat.
  - apply (Rmult_lt_reg_r (kn + xn)); [exact Hd|].
    unfold Rdiv. rewrite Rmult_assoc, Rinv_l, Rmult_1_r by lra. nra.
Qed.

Lemma hill_equation_between_zero_and_Vmax_witness :
  exists y : R, hill_equation 2 3 1 (-1) = Some y /\ 0 < y < 3.
Proof. apply (hill_equation_between_zero_and_Vmax 2 3 1 (-1)); lra. Defined.

(** X10: for a positive midpoint, slope and asymptote the curve is
    strictly increasing in the concentration: a larger positive [x] gives
    a strictly larger response. *)
Theorem hill_equation_increasing (x1 x2 Vmax Kd n : R) :
  0 < Kd -> 0 < n -> 0 < Vmax -> 0 < x1 -> x1 < x2 ->
  exists y1 y2 : R,
    hill_equation x1 Vmax Kd n = Some y1
    /\ hill_equation x2 Vmax Kd n = Some y2
    /\ y1 < y2.
Proof.
  intros HKd Hn HV Hx1 Hlt.
  assert (Hx2 : 0 < x2) by lra.
  assert (Hn0 : n <> 0) by lra.
  pose proof (power_pos_base_nonzero_exp x1 n Hx1 Hn0) as E1.
  pose proof (power_pos_base_nonzero_exp x2 n Hx2 Hn0) as E2.
  pose proof (power_pos_base_nonzero_exp Kd n HKd Hn0) as Ek.
  assert (Ha : Rpower x1 n < Rpower x2 n)
    by (apply Rlt_Rpower_l; [exact Hn | split; assumption]).
  set (a1 := Rpower x1 n) in *. set (a2 := Rpower x2 n) in *.
  set (k := Rpower Kd n) in *.
  assert (Ha1 : 0 < a1) by apply exp_pos.
  assert (Ha2 : 0 < a2) by apply exp_pos.
  assert (Hk : 0 < k) by apply exp_pos.
  exists (Vmax * a1 / (k + a1)), (Vmax * a2 / (k + a2)).
  split; [now apply hill_equation_value|].
  split; [now apply hill_equation_value|].
  assert (Hd1 : 0 < k + a1) by lra. assert (Hd2 : 0 < k + a2) by lra.
  apply (Rmult_lt_reg_r (k + a1)); [exact Hd1|].
  apply (Rmult_lt_reg_r (k + a2)); [exact Hd2|].
  replace (Vmax * a1 / (k + a1) * (k + a1) * (k + a2))
    with (Vmax * a1 * (k + a2)) by (field; lra).
  replace (Vmax * a2 / (k + a2) * (k + a1) * (k + a2))
    with (Vmax * a2 * (k + a1)) by (field; lra).
  assert (Hk' : 0 < Vmax * k) by now apply Rmult_lt_0_compat.
  nra.
Qed.

Lemma hill_equation_increasing_witness :
  exists y1 y2 : R,
    hill_equation 1 1 1 2 = Some y1 /\ hill_equation 2 1 1 2 = Some y2 /\ y1 < y2.
Proof. apply (hill_equation_increasing 1 2 1 1 2); lra. Defined.

(** X11: at [x = 0] the curve has no value when the slope is negative
    (0 is raised to a negative power) and none when the midpoint is 0
    and the slope positive (0 is divided by 0), whatever the asymptote. *)
Theorem hill_equation_undefined_at_zero (Vmax Kd n : R) :
  (n < 0 -> hill_equation 0 Vmax Kd n = None)
  /\ (0 < n -> hill_equation 0 Vmax 0 n = None).
Proof.
  split; intros Hn; unfold hill_equation.
  - assert (E : power 0 n = None).
    { unfold power.
      destruct (Req_EM_T n 0) as [H|_]; [lra|].
      destruct (Rlt_dec 0 0) as [H|_]; [lra|].
      destruct (Req_EM_T 0 0) as [_|H]; [|lra].
      destruct (Rlt_dec 0 n) as [H|_]; [lra | reflexivity]. }
    now rewrite E.
  - rewrite (power_zero_base n Hn). unfold divide.
    destruct (Req_EM_T (0 + 0) 0) as [_|H]; [reflexivity | lra].
Qed.

Lemma hill_equation_undefined_at_zero_witness :
  hill_equation 0 1 1 (-2) = None /\ hill_equation 0 1 0 2 = None.
Proof.
  split.
  - apply (proj1 (hill_equation_undefined_at_zero 1 1 (-2))). lra.
  - apply (proj2 (hill_equation_undefined_at_zero 1 1 2)). lra.
Defined.

End HillShape.

(** ** The order of array values *)

Section FloatOrder.
Import Float.

Lemma gt_not_NaN (a b : float) : gt a b = true -> a <> NaN /\ b <> NaN.
Proof. destruct a, b; simpl; intros H; split; congruence. Qed.

Lemma gt_le (a b : float) : gt a b = true -> le b a = true.
Proof.
  destruct a as [| |p|], b as [| |q|]; simpl; try congruence.
  rewrite negb_true_iff, <- not_true_iff_false, !Qle_bool_iff.
  intros H. apply Qlt_le_weak. now apply Qnot_le_lt.
Qed.

Lemma not_gt_le (a b : float) :
  a <> NaN -> b <> NaN -> gt a b = false -> le a b = true.
Proof.
  destruct a as [| |p|], b as [| |q|]; simpl; try congruence.
  intros _ _ H. now apply negb_false_iff in H.
Qed.

Lemma le_refl (a : float) : a <> NaN -> le a a = true.
Proof.
  destruct a as [| |p|]; simpl; try congruence.
  intros _. apply Qle_bool_iff, Qle_refl.
Qed.

Lemma le_trans (a b c : float) : le a b = true -> le b c = true -> le a c = true.
Proof.
  destruct a as [| |p|], b as [| |q|], c as [| |r|]; simpl; try congruence.
  rewrite !Qle_bool_iff. apply Qle_trans.
Qed.

End FloatOrder.

(** ** The range of the fitted curve *)

Section HillRange.
Import Float Py HillData HillScript.

Lemma min_from_spec (items : list float) :
  forall best : float,
    best <> NaN -> Forall (fun v => v <> NaN) items ->
    In (min_from best items) (best :: items)
    /\ le (min_from best items) best = true
    /\ Forall (fun v => le (min_from best items) v = true) items.
Proof.
  induction items as [|v items IH]; intros best Hb Hitems; simpl.
  - repeat split; [now left | now apply le_refl | constructor].
  - inversion Hitems as [|? ? Hv Hrest]; subst.
    set (b' := if lt v best then v else best).
    assert (Hb' : b' <> NaN) by (unfold b'; now destruct (lt v best)).
    assert (Hle : le b' best = true /\ le b' v = true).
    { unfold b', lt. destruct (gt best v) eqn:G.
      - split; [now apply gt_le | now apply le_refl].
      - split; [now apply le_refl | now apply not_gt_le]. }
    destruct (IH b' Hb' Hrest) as [Hin [Hm Hall]].
    split; [|split].
    + destruct Hin as [E|Hin]; [|now right; right].
      rewrite <- E. unfold b'. destruct (lt v best); [right; now left | now left].
    + eapply le_trans; [exact Hm | apply Hle].
    + constructor; [eapply le_trans; [exact Hm | apply Hle] | exact Hall].
Qed.

Lemma max_from_spec (items : list float) :
  forall best : float,
    best <> NaN -> Forall (fun v => v <> NaN) items ->
    In (max_from best items) (best :: items)
    /\ le best (max_from best items) = true
    /\ Forall (fun v => le v (max_from best items) = true) items.
Proof.
  induction items as [|v items IH]; intros best Hb Hitems; simpl.
  - repeat split; [now left | now apply le_refl | constructor].
  - inversion Hitems as [|? ? Hv Hrest]; subst.
    set (b' := if gt v best then v else best).
    assert (Hb' : b' <> NaN) by (unfold b'; now destruct (gt v best)).
    assert (Hle : le best b' = true /\ le v b' = true).
    { unfold b'. destruct (gt v best) eqn:G.
      - split; [now apply gt_le | now apply le_refl].
      - split; [now apply le_refl | now apply not_gt_le]. }
    destruct (IH b' Hb' Hrest) as [Hin [Hm Hall]].
    split; [|split].
    + destruct Hin as [E|Hin]; [|now right; right].
      rewrite <- E. unfold b'. destruct (gt v best); [right; now left | now left].
    + eapply le_trans; [apply Hle | exact Hm].
    + constructor; [eapply le_trans; [apply Hle | exact Hm] | exact Hall].
Qed.

(** X12: the end points of the smooth curve.  On a data frame with no
    row of positive [Conc] the script stops with [ValueError] at
    [min(x)].  Otherwise [min(x)] and [max(x)] are [Conc] values of kept
    rows, both strictly positive (so their logarithms exist), with
    [min(x) <= Conc <= max(x)] for every kept row. *)
Theorem smooth_range_of_positive_rows (df : dataframe) :
  (positive_rows df = [] ->
   exists text : string, smooth_range df = inl (ValueError text))
  /\ (positive_rows df <> [] ->
      exists lo hi : float,
        smooth_range df = inr (lo, hi)
        /\ gt lo zero = true /\ gt hi zero = true
        /\ (exists k r, In (k, r) (positive_rows df) /\ Conc r = lo)
        /\ (exists k r, In (k, r) (positive_rows df) /\ Conc r = hi)
        /\ forall k r, In (k, r) (positive_rows df) ->
             le lo (Conc r) = true /\ le (Conc r) hi = true).
Proof.
  unfold smooth_range. rewrite positivity_filter_eq. simpl.
  unfold values. rewrite List.map_map. simpl.
  set (rows := positive_rows df).
  assert (Hpos : Forall (fun v => gt v zero = true)
                   (List.map (fun kr => Conc (snd kr)) rows)).
  { apply List.Forall_forall. intros v Hv.
    apply List.in_map_iff in Hv as [[k r] [<- Hkr]].
    unfold rows, positive_rows in Hkr. apply List.filter_In in Hkr. apply Hkr. }
  assert (Hnum : Forall (fun v => v <> NaN) (List.map (fun kr => Conc (snd kr)) rows)).
  { eapply List.Forall_impl; [|exact Hpos]. intros v Hv. now apply gt_not_NaN in Hv. }
  assert (Hfrom : forall v, In v (List.map (fun kr => Conc (snd kr)) rows) ->
            gt v zero = true /\ exists k r, In (k, r) rows /\ Conc r = v).
  { intros v Hv. split; [now apply (proj1 (List.Forall_forall _ _) Hpos)|].
    apply List.in_map_iff in Hv as [[k r] [<- Hkr]]. eauto. }
  split; intros Hrows.
  - rewrite Hrows. eexists. reflexivity.
  - destruct (List.map (fun kr => Conc (snd kr)) rows) as [|v vs] eqn:Evs.
    { destruct rows; [congruence | discriminate]. }
    inversion Hnum as [|? ? Hv Hvs]; subst.
    destruct (min_from_spec vs v Hv Hvs) as [Imin [Lmin Amin]].
    destruct (max_from_spec vs v Hv Hvs) as [Imax [Lmax Amax]].
    exists (min_from v vs), (max_from v vs). simpl.
    split; [reflexivity|].
    destruct (Hfrom _ Imin) as [Pmin Fmin]. destruct (Hfrom _ Imax) as [Pmax Fmax].
    repeat (split; [assumption|]).
    intros k r Hkr.
    assert (Hin : In (Conc r) (v :: vs)).
    { rewrite <- Evs. apply List.in_map_iff. now exists (k, r). }
    destruct Hin as [<-|Hin]; [now split|].
    split.
    + now apply (proj1 (List.Forall_forall _ _) Amin).
    + now apply (proj1 (List.Forall_forall _ _) Amax).
Qed.

Lemma smooth_range_of_positive_rows_witness :
  exists lo hi : float,
    smooth_range [ {| Conc := of_Z 5; Mean := of_Z 1; SD := zero |};
                   {| Conc := zero; Mean := of_Z 2; SD := zero |};
                   {| Conc := of_Z 2; Mean := of_Z 3; SD := zero |} ]
    = inr (lo, hi)
    /\ gt lo zero = true /\ gt hi zero = true.
Proof.
  destruct (proj2 (smooth_range_of_positive_rows
                     [ {| Conc := of_Z 5; Mean := of_Z 1; SD := zero |};
                       {| Conc := zero; Mean := of_Z 2; SD := zero |};
                       {| Conc := of_Z 2; Mean := of_Z 3; SD := zero |} ]))
    as [lo [hi [E [Hlo [Hhi _]]]]].
  - vm_compute. discriminate.
  - exists lo, hi. auto.
Defined.

End HillRange.

(** ** The histogram script *)

Section HistogramFacts.
Import Float Float32 Py Histogram.

Lemma take_flagged_map (p : float -> bool) (data : list float) :
  take_flagged data (List.map p data) = List.filter p data.
Proof.
  induction data as [|x data IH]; simpl; [reflexivity|].
  destruct (p x); now rewrite IH.
Qed.

Lemma np_getitem_map (p : float -> bool) (data : list float) :
  np_getitem data (List.map p data) = inr (List.filter p data).
Proof.
  unfold np_getitem. rewrite List.length_map, Nat.eqb_refl.
  now rewrite take_flagged_map.
Qed.

Lemma filter_twice (p q : float -> bool) (data : list float) :
  List.filter q (List.filter p data) = List.filter (fun x => p x && q x) data.
Proof.
  induction data as [|x data IH]; simpl; [reflexivity|].
  destruct (p x); simpl; [destruct (q x)|]; now rewrite IH.
Qed.

Lemma filter_all (data : list float) : List.filter (fun _ => true) data = data.
Proof. induction data as [|x data IH]; simpl; [reflexivity | now rewrite IH]. Qed.

Lemma apply_thresholds_filter (data : list float) (bottom top : option float) :
  apply_thresholds data bottom top = inr (List.filter (within bottom top) data).
Proof.
  unfold apply_thresholds, within.
  destruct bottom as [b|], top as [t|]; simpl;
    rewrite ?np_getitem_map; simpl; rewrite ?np_getitem_map.
  - now rewrite filter_twice.
  - f_equal. apply List.filter_ext. intros x. now rewrite andb_true_r.
  - reflexivity.
  - now rewrite filter_all.
Qed.

Lemma within_bounds (bottom top : float) (x : float) :
  within (Some bottom) (Some top) x = true ->
  le (to_float32 bottom) x = true /\ le x (to_float32 top) = true /\ x <> NaN.
Proof.
  unfold within, ge. intros H. apply andb_true_iff in H as [Hb Ht].
  repeat split; try assumption. destruct x; simpl in *; congruence.
Qed.

Lemma same_le_r (a b c : float) : same a b = true -> le c a = le c b.
Proof.
  destruct a as [| |p|], b as [| |q|], c as [| |r|]; simpl; try congruence.
  intros E. apply Qeq_bool_iff in E. now rewrite E.
Qed.

(** X13: the two threshold filters of [plot_histogram] never fail and
    amount to one pass over the data that keeps, in their order, exactly
    the samples at or above the bottom threshold and at or below the top
    one, the thresholds being converted to the float32 type of the array
    (a threshold left at [None] does not filter).  This is the data
    handed to [plt.hist]; with both thresholds set no kept sample is NaN,
    and every float32 sample that lies between the thresholds as they
    are written is kept. *)
Theorem plot_histogram_keeps_samples_within_thresholds
    (data : list float) (bottom_threshold top_threshold : option float) :
  apply_thresholds data bottom_threshold top_threshold
  = inr (List.filter (within bottom_threshold top_threshold) data)
  /\ (forall plt_hist bins xlim xtick_distance bin_color h,
        plot_histogram plt_hist data bins xlim xtick_distance bin_color
          bottom_threshold top_threshold = inr h ->
        hist_data h = List.filter (within bottom_threshold top_threshold) data)
  /\ (forall b t, bottom_threshold = Some b -> top_threshold = Some t ->
        Forall (fun x => le (to_float32 b) x = true /\ le x (to_float32 t) = true
                         /\ x <> NaN)
          (List.filter (within bottom_threshold top_threshold) data))
  /\ (forall b t x, bottom_threshold = Some b -> top_threshold = Some t ->
        is_float32 x = true -> le b x = true -> le x t = true ->
        within bottom_threshold top_threshold x = true).
Proof.
  split; [apply apply_thresholds_filter|]. split; [|split].
  - intros plt_hist bins xlim xtd color h. unfold plot_histogram.
    rewrite apply_thresholds_filter.
    destruct (choose_bins xlim bins) as [e|bins']; [discriminate|].
    destruct (choose_color color bins') as [e|c]; [discriminate|].
    destruct (plt_hist _ bins' c) as [e|u]; [discriminate|].
    destruct xtd as [d|].
    + destruct (np_min _) as [e|lo]; simpl; [discriminate|].
      destruct (np_max _) as [e|hi]; simpl; [discriminate|].
      intros H. injection H as <-. reflexivity.
    + intros H. injection H as <-. reflexivity.
  - intros b t -> ->. apply List.Forall_forall. intros x Hx.
    apply List.filter_In in Hx as [_ Hx]. now apply within_bounds.
  - intros b t x -> -> Hx Hb Ht. unfold within, ge. apply andb_true_iff. split.
    + rewrite <- (same_le_r _ _ _ Hx). now apply to_float32_mono.
    + now apply le_to_float32.
Qed.

Lemma plot_histogram_keeps_samples_within_thresholds_witness :
  Forall (fun x => le (to_float32 (of_Z 50)) x = true
                   /\ le x (to_float32 (of_Z 200)) = true /\ x <> NaN)
    (List.filter (within (Some (of_Z 50)) (Some (of_Z 200)))
       [of_Z 20; of_Z 50; NaN; of_Z 120; of_Z 200; PosInf])
  /\ within (Some (of_Z 50)) (Some (of_Z 200)) (of_Z 200) = true.
Proof.
  pose proof (plot_histogram_keeps_samples_within_thresholds
                [of_Z 20; of_Z 50; NaN; of_Z 120; of_Z 200; PosInf]
                (Some (of_Z 50)) (Some (of_Z 200))) as [_ [_ [H3 H4]]].
  split.
  - apply (H3 (of_Z 50) (of_Z 200)); reflexivity.
  - apply (H4 (of_Z 50) (of_Z 200) (of_Z 200)); try reflexivity;
      vm_compute; reflexivity.
Defined.

Lemma set_last_length (y : list Q) (stop : Q) :
  List.length (set_last y stop) = List.length y.
Proof.
  induction y as [|v [|w y] IH]; simpl in *; try reflexivity. now rewrite IH.
Qed.

Lemma set_last_last (y : list Q) (stop : Q) :
  y <> [] -> last (set_last y stop) = Some stop.
Proof.
  induction y as [|v [|w y] IH]; intros H; [congruence | reflexivity |].
  change (last (v :: set_last (w :: y) stop) = Some stop).
  assert (Hn : set_last (w :: y) stop <> []).
  { intros E. apply (f_equal (@List.length Q)) in E.
    rewrite set_last_length in E. discriminate E. }
  destruct (set_last (w :: y) stop) as [|z zs] eqn:E; [congruence|].
  change (last (z :: zs) = Some stop). apply IH. discriminate.
Qed.

Lemma set_last_lookup (y : list Q) (stop : Q) (i : nat) :
  S i < List.length y -> set_last y stop !! i = y !! i.
Proof.
  revert i. induction y as [|v [|w y] IH]; intros i Hi; simpl in Hi; try lia.
  change (set_last (v :: w :: y) stop) with (v :: set_last (w :: y) stop).
  destruct i as [|i]; [reflexivity|].
  change ((v :: set_last (w :: y) stop) !! S i) with (set_last (w :: y) stop !! i).
  change ((v :: w :: y) !! S i) with ((w :: y) !! i).
  apply IH. simpl. lia.
Qed.

Lemma lookup_map_seq {A : Type} (f : nat -> A) (n i : nat) :
  i < n -> List.map f (seq 0 n) !! i = Some (f i).
Proof.
  intros Hi.
  change (List.map f (seq 0 n)) with (f <$> seq 0 n).
  rewrite list_lookup_fmap, lookup_seq_lt by exact Hi. reflexivity.
Qed.

(** X14: with an [xlim] and an integer [bins >= 2], the bins handed to
    [plt.hist] are [bins] equally spaced edges from [xmin] to [xmax]
    inclusive (edge [i] is [xmin + i * (xmax - xmin) / (bins - 1)], the
    last one is [xmax] itself), so the histogram has [bins - 1] bars, one
    fewer than the number asked for. *)
Theorem choose_bins_edges (xmin xmax : Q) (n : Z) :
  (2 <= n)%Z ->
  exists edges : list Q,
    choose_bins (Some (xmin, xmax)) (BinCount n) = inr (BinEdges edges)
    /\ List.length edges = Z.to_nat n
    /\ last edges = Some xmax
    /\ (exists e0, edges !! 0%nat = Some e0 /\ (e0 == xmin)%Q)
    /\ forall i : nat, S i < Z.to_nat n ->
         edges !! i
         = Some (inject_Z (Z.of_nat i) * ((xmax - xmin) / inject_Z (n - 1)) + xmin)%Q.
Proof.
  intros Hn. unfold choose_bins, np_linspace.
  destruct (Z.ltb_spec n 0) as [H|_]; [lia|].
  destruct (Z.ltb_spec 0 (n - 1)) as [_|H]; [|lia].
  destruct (Z.ltb_spec 1 n) as [_|H]; [|lia].
  rewrite !List.map_map.
  set (f := fun i : nat =>
              (inject_Z (Z.of_nat i) * ((xmax - xmin) / inject_Z (n - 1)) + xmin)%Q).
  change (List.map _ (seq 0 (Z.to_nat n))) with (List.map f (seq 0 (Z.to_nat n))).
  assert (Hlen : List.length (List.map f (seq 0 (Z.to_nat n))) = Z.to_nat n)
    by now rewrite List.length_map, List.length_seq.
  eexists. split; [reflexivity|].
  split; [now rewrite set_last_length|].
  split.
  { apply set_last_last. intros E. rewrite E in Hlen. simpl in Hlen. lia. }
  assert (Hi : forall i, S i < Z.to_nat n ->
             set_last (List.map f (seq 0 (Z.to_nat n))) xmax !! i = Some (f i)).
  { intros i Hi. rewrite set_last_lookup by (rewrite Hlen; exact Hi).
    apply lookup_map_seq. lia. }
  split; [|exact Hi].
  exists (f 0%nat). split; [apply Hi; lia|].
  unfold f. simpl. ring.
Qed.

Lemma choose_bins_edges_witness :
  exists edges : list Q,
    choose_bins (Some (50, 250)%Q) (BinCount 50) = inr (BinEdges edges)
    /\ List.length edges = 50%nat
    /\ last edges = Some 250%Q.
Proof.
  destruct (choose_bins_edges 50 250 50) as [edges [E [L [La _]]]]; [lia|].
  exists edges. auto.
Defined.

(** X15: two misuses that the signature of [plot_histogram] allows end in
    [TypeError], whatever the data: bin edges given together with an
    [xlim] ([np.linspace] needs an integer), and a list of colours given
    with an integer [bins] and no [xlim] ([len(bins)] of an integer). *)
Theorem plot_histogram_type_errors
    (plt_hist : list float -> bins_arg -> hist_color -> result unit)
    (data : list float) (xtick_distance : option Q)
    (bottom_threshold top_threshold : option float) :
  (forall xlim edges bin_color,
      plot_histogram plt_hist data (BinEdges edges) (Some xlim) xtick_distance bin_color
        bottom_threshold top_threshold = inl TypeError)
  /\ (forall n names,
        plot_histogram plt_hist data (BinCount n) None xtick_distance (ColorList names)
          bottom_threshold top_threshold = inl TypeError).
Proof.
  split.
  - intros [xmin xmax] edges color. unfold plot_histogram.
    now rewrite apply_thresholds_filter.
  - intros n names. unfold plot_histogram.
    now rewrite apply_thresholds_filter.
Qed.

(** X16: when [xtick_distance] is set, no sample lies within the
    thresholds and [plt.hist] accepts the call on the empty data,
    [plot_histogram] stops with [ValueError] at [np.min(data)], which has
    nothing to reduce, so the figure is never saved; without
    [xtick_distance] the same call goes through with empty data. *)
Theorem plot_histogram_no_samples_no_ticks
    (plt_hist : list float -> bins_arg -> hist_color -> result unit)
    (data : list float) (bins bins' : bins_arg) (xlim : option (Q * Q))
    (distance : Q) (bin_color : color_arg) (color : hist_color)
    (bottom_threshold top_threshold : option float) :
  List.filter (within bottom_threshold top_threshold) data = [] ->
  choose_bins xlim bins = inr bins' ->
  choose_color bin_color bins' = inr color ->
  plt_hist [] bins' color = inr tt ->
  plot_histogram plt_hist data bins xlim (Some distance) bin_color
    bottom_threshold top_threshold
  = inl (Raised (ValueError
      "zero-size array to reduction operation minimum which has no identity"))
  /\ exists h, plot_histogram plt_hist data bins xlim None bin_color
                 bottom_threshold top_threshold = inr h
               /\ hist_data h = [].
Proof.
  intros Hempty Hbins Hcolor Hhist. unfold plot_histogram.
  rewrite apply_thresholds_filter, Hempty, Hbins, Hcolor, Hhist. simpl.
  split; [reflexivity|]. eexists. split; reflexivity.
Qed.

Lemma plot_histogram_no_samples_no_ticks_witness :
  plot_histogram hist_accepts_all [of_Z 20; of_Z 300] (BinCount 50) None
    (Some 50%Q) (ColorName "grey") (Some (of_Z 50)) (Some (of_Z 200))
  = inl (Raised (ValueError
      "zero-size array to reduction operation minimum which has no identity")).
Proof.
  apply (plot_histogram_no_samples_no_ticks hist_accepts_all [of_Z 20; of_Z 300]
           (BinCount 50) (BinCount 50) None 50%Q (ColorName "grey")
           (OneColor "grey") (Some (of_Z 50)) (Some (of_Z 200)));
    vm_compute; reflexivity.
Defined.

End HistogramFacts.

(** ** The threshold sweep and the exported sheet *)

Section ExportFacts.
Import Float Py Loader Threshold Naming ExportScript.

Variable float_of_string : string -> option float.
Variable np_float32 : float -> float.
Variable fs : filesystem.
Variable path_A : string.
Variable number_of_files : nat.
Variable exptitle : string.
Variable expnum : nat.
Variable thresholds : list Z.

Local Abbreviation load_files :=
  (Loader.load_files float_of_string np_float32 fs path_A number_of_files).
Local Abbreviation channel_A :=
  (ExportScript.channel_A float_of_string np_float32 fs path_A number_of_files).
Local Abbreviation file_stems := (ExportScript.file_stems exptitle expnum).
Local Abbreviation events_column :=
  (ExportScript.events_column float_of_string np_float32 fs path_A number_of_files
     exptitle expnum).
Local Abbreviation file_stem_loop :=
  (ExportScript.file_stem_loop float_of_string np_float32 fs path_A number_of_files
     thresholds).
Local Abbreviation numeric k :=
  (fun r : row => is_Some (Loader.field_value float_of_string k r)).

Local Abbreviation sound_runs :=
  (ExportScript.sound_runs float_of_string fs path_A number_of_files exptitle expnum).

Lemma events_dict_init_lookup (ths : list Z) (d : gmap Z (list Z)) (t : Z) :
  fold_left (fun d threshold => <[threshold := []]> d) ths d !! t
  = if bool_decide (t ∈ ths) then Some [] else d !! t.
Proof.
  revert d. induction ths as [|t' ths IH]; intros d; cbn [fold_left].
  - rewrite bool_decide_eq_false_2; [reflexivity | apply not_elem_of_nil].
  - rewrite IH. destruct (decide (t ∈ ths)) as [Hin|Hnin].
    + rewrite !bool_decide_eq_true_2; [reflexivity | now right | exact Hin].
    + rewrite (bool_decide_eq_false_2 _ Hnin).
      destruct (decide (t = t')) as [->|Hne].
      * rewrite lookup_insert_eq, bool_decide_eq_true_2; [reflexivity | now left].
      * rewrite lookup_insert_ne by congruence.
        rewrite bool_decide_eq_false_2; [reflexivity|].
        intros H. apply elem_of_cons in H as [H|H]; contradiction.
Qed.

Lemma threshold_loop_ok (file_stem : string) (arr : list float) (ths : list Z) :
  forall (d : gmap Z (list Z)) (out : list string),
    NoDup ths ->
    (forall t, t ∈ ths -> is_Some (d !! t)) ->
    exists out' d',
      threshold_loop file_stem arr ths d out = (out', inr d')
      /\ (forall t, t ∈ ths ->
            d' !! t
            = (fun col => col ++ [count_events_above_threshold arr (of_Z t)]) <$> d !! t)
      /\ (forall t, t ∉ ths -> d' !! t = d !! t).
Proof.
  induction ths as [|t ths IH]; intros d out Hnd Hsome; simpl.
  - exists out, d. split; [reflexivity|]. split; [|reflexivity].
    intros t Ht. now apply elem_of_nil in Ht.
  - apply NoDup_cons in Hnd as [Hnin Hnd].
    destruct (Hsome t) as [col Hcol]; [now left|]. rewrite Hcol.
    set (d1 := <[t := col ++ [count_events_above_threshold arr (of_Z t)]]> d).
    destruct (IH d1 (out ++ [file_stem +:+ " - Number of events above " +:+ str_int t
                              +:+ ": "
                              +:+ str_int (count_events_above_threshold arr (of_Z t))])
                Hnd) as [out' [d' [E [Hin Hout]]]].
    { intros t' Ht'. unfold d1. rewrite lookup_insert_ne.
      - apply Hsome. now right.
      - intros ->. contradiction. }
    exists out', d'. split; [exact E|]. split.
    + intros t' Ht'. apply elem_of_cons in Ht' as [->|Ht'].
      * rewrite (Hout t Hnin). unfold d1. now rewrite lookup_insert_eq, Hcol.
      * rewrite (Hin t' Ht'). unfold d1. rewrite lookup_insert_ne; [reflexivity|].
        intros ->. contradiction.
    + intros t' Ht'. apply not_elem_of_cons in Ht' as [Hne Ht'].
      rewrite (Hout t' Ht'). unfold d1. now rewrite lookup_insert_ne.
Qed.

Lemma file_stem_loop_ok (stems : list string) :
  forall (d : gmap Z (list Z)) (out : list string),
    NoDup thresholds ->
    (forall stem, In stem stems ->
       exists lines a b, load_files stem = (lines, inr (a, b))) ->
    (forall t, t ∈ thresholds -> is_Some (d !! t)) ->
    exists out' d',
      file_stem_loop stems d out = (out', inr d')
      /\ (forall t, t ∈ thresholds ->
            d' !! t
            = (fun col =>
                 col ++ List.map
                          (fun stem => count_events_above_threshold (channel_A stem) (of_Z t))
                          stems) <$> d !! t)
      /\ (forall t, t ∉ thresholds -> d' !! t = d !! t).
Proof.
  induction stems as [|stem stems IH]; intros d out Hnd Hload Hsome; simpl.
  - exists out, d. split; [reflexivity|]. split; [|reflexivity].
    intros t Ht. destruct (d !! t); simpl; [now rewrite app_nil_r | reflexivity].
  - destruct (Hload stem (or_introl eq_refl)) as [lines [a [b El]]].
    assert (Ea : channel_A stem = a) by (unfold ExportScript.channel_A; now rewrite El).
    rewrite El.
    destruct (threshold_loop_ok stem a thresholds d (out ++ lines) Hnd Hsome)
      as [out1 [d1 [E1 [Hin1 Hout1]]]].
    rewrite E1.
    destruct (IH d1 out1 Hnd) as [out' [d' [E [Hin Hout]]]].
    { intros s Hs. apply Hload. now right. }
    { intros t Ht. rewrite (Hin1 t Ht). destruct (Hsome t Ht) as [c ->]. simpl. eauto. }
    exists out', d'. split; [exact E|]. split.
    + intros t Ht. rewrite (Hin t Ht), (Hin1 t Ht), Ea.
      destruct (d !! t); simpl; [|reflexivity]. now rewrite <- app_assoc.
    + intros t Ht. now rewrite (Hout t Ht), (Hout1 t Ht).
Qed.

Lemma sound_runs_load (stem : string) :
  sound_runs -> In stem file_stems ->
  exists lines a b, load_files stem = (lines, inr (a, b)).
Proof.
  intros Hsound Hstem.
  destruct (load_files_loop_ok float_of_string fs path_A stem (seq 0 number_of_files))
    with (A := @nil float) (B := @nil float) (out := @nil string)
    as [va [vb [E _]]].
  { intros i rows Hi. apply (Hsound stem i rows Hstem). apply in_seq in Hi. lia. }
  unfold Loader.load_files. rewrite E. eauto.
Qed.

Lemma events_dict_after_sweep_aux :
  NoDup thresholds -> sound_runs ->
  exists (out : list string) (events_dict : gmap Z (list Z)),
    file_stem_loop file_stems (ExportScript.events_dict_init thresholds) []
    = (out, inr events_dict)
    /\ (forall t, t ∈ thresholds -> events_dict !! t = Some (events_column t))
    /\ (forall t, t ∉ thresholds -> events_dict !! t = None).
Proof.
  intros Hnd Hsound.
  destruct (file_stem_loop_ok file_stems (events_dict_init thresholds) [] Hnd)
    as [out [d [E [Hin Hout]]]].
  { intros stem Hstem. now apply sound_runs_load. }
  { intros t Ht. unfold events_dict_init.
    rewrite events_dict_init_lookup, bool_decide_eq_true_2 by exact Ht. eauto. }
  exists out, d. split; [exact E|]. split.
  - intros t Ht. rewrite (Hin t Ht). unfold events_dict_init.
    rewrite events_dict_init_lookup, bool_decide_eq_true_2 by exact Ht.
    reflexivity.
  - intros t Ht. rewrite (Hout t Ht). unfold events_dict_init.
    rewrite events_dict_init_lookup, bool_decide_eq_false_2 by exact Ht.
    apply lookup_empty.
Qed.

(** X17: the sweep.  When the thresholds are pairwise distinct integers
    that a double holds exactly and the files that exist are sound, the
    two nested loops end normally and leave in [events_dict] exactly one
    list per threshold, holding for each run, in run order, the number of
    samples of channel A strictly above that threshold converted to
    float32, which is what the comparison of a float32 array with a
    Python number counts: every list has [expnum] entries. *)
Theorem events_dict_after_sweep :
  NoDup thresholds ->
  Forall (fun t => (Z.abs t <= 2 ^ 53)%Z) thresholds ->
  sound_runs ->
  exists (out : list string) (events_dict : gmap Z (list Z)),
    file_stem_loop file_stems (ExportScript.events_dict_init thresholds) []
    = (out, inr events_dict)
    /\ (forall t, t ∈ thresholds ->
          events_dict !! t = Some (events_column t)
          /\ List.length (events_column t) = expnum
          /\ events_column t
             = List.map
                 (fun i =>
                    Z.of_nat (strictly_greater_count
                                (channel_A (exptitle +:+ fmt_02d (S i)))
                                (Float32.to_float32 (of_Z t))))
                 (seq 0 expnum))
    /\ (forall t, t ∉ thresholds -> events_dict !! t = None).
Proof.
  intros Hnd _ Hsound.
  destruct (events_dict_after_sweep_aux Hnd Hsound) as [out [d [E [Hin Hout]]]].
  exists out, d. split; [exact E|]. split; [|exact Hout].
  intros t Ht. split; [apply Hin, Ht|].
  unfold ExportScript.events_column, ExportScript.file_stems.
  split; [now rewrite !List.length_map, List.length_seq|].
  rewrite List.map_map, <- List.seq_shift, List.map_map.
  apply List.map_ext. intros i. apply count_events_spec.
Qed.

Lemma str_dash_not_digits (a b : nat) : "-" +:+ str a <> str b.
Proof.
  unfold str. intros E. apply (f_equal NilEmpty.uint_of_string) in E.
  rewrite NilEmpty.usu in E.
  change (NilEmpty.uint_of_string ("-" +:+ NilEmpty.string_of_uint (Nat.to_uint a)))
    with (DecimalString.uint_of_char "-"
            (NilEmpty.uint_of_string (NilEmpty.string_of_uint (Nat.to_uint a)))) in E.
  rewrite NilEmpty.usu in E. discriminate E.
Qed.

Lemma str_int_inj (z1 z2 : Z) : str_int z1 = str_int z2 -> z1 = z2.
Proof.
  unfold str_int.
  destruct (Z.ltb_spec z1 0), (Z.ltb_spec z2 0); intros E.
  - apply append_cancel_l in E. apply str_inj in E. lia.
  - now apply str_dash_not_digits in E.
  - symmetry in E. now apply str_dash_not_digits in E.
  - apply str_inj in E. lia.
Qed.

Lemma event_key_inj (t1 t2 : Z) :
  "Events above " +:+ str_int t1 = "Events above " +:+ str_int t2 -> t1 = t2.
Proof. intros E. apply append_cancel_l in E. now apply str_int_inj. Qed.

Lemma event_key_not_fixed (t : Z) :
  ~ In ("Events above " +:+ str_int t)
       (List.map fst (fixed_columns expnum)).
Proof.
  change ("Events above " +:+ str_int t)
    with (String "E" ("vents above " +:+ str_int t)).
  simpl. intros [H|[H|[H|[H|[H|[]]]]]]; discriminate H.
Qed.

Lemma dict_set_fresh {V : Type} (d : list (string * V)) (k : string) (v : V) :
  ~ In k (List.map fst d) -> dict_set d k v = d ++ [(k, v)].
Proof.
  induction d as [|[k' v'] d IH]; simpl; intros H; [reflexivity|].
  destruct (String.eqb_spec k' k) as [->|Hne]; [tauto|].
  rewrite IH; [reflexivity | tauto].
Qed.

Lemma add_event_columns_ok (d : gmap Z (list Z)) (col : Z -> list Z) (ths : list Z) :
  forall data : list (string * list cell),
    NoDup ths ->
    (forall t, t ∈ ths -> d !! t = Some (col t)) ->
    (forall t, t ∈ ths -> ~ In ("Events above " +:+ str_int t) (List.map fst data)) ->
    add_event_columns ths d data
    = inr (data ++ List.map
                     (fun t => ("Events above " +:+ str_int t, List.map Number (col t)))
                     ths).
Proof.
  induction ths as [|t ths IH]; intros data Hnd Hd Hfresh; simpl.
  - now rewrite app_nil_r.
  - apply NoDup_cons in Hnd as [Hnin Hnd].
    rewrite (Hd t) by now left.
    rewrite dict_set_fresh by (apply Hfresh; now left).
    rewrite IH; [now rewrite <- app_assoc | exact Hnd | |].
    + intros t' Ht'. apply Hd. now right.
    + intros t' Ht'. rewrite List.map_app, List.in_app_iff. simpl.
      intros [H|[H|[]]].
      * revert H. apply Hfresh. now right.
      * apply event_key_inj in H. subst t'. contradiction.
Qed.

Lemma nth_map_seq {A : Type} (f : nat -> A) (a n i : nat) (d : A) :
  i < n -> nth i (List.map f (seq a n)) d = f (a + i).
Proof.
  intros Hi. rewrite (nth_indep _ d (f 0)) by now rewrite List.length_map, List.length_seq.
  now rewrite List.map_nth, List.seq_nth.
Qed.

Lemma nth_repeat_blank (i n : nat) : nth i (repeat (Text "") n) (Text "") = Text "".
Proof.
  revert i. induction n as [|n IH]; intros [|i]; simpl; try reflexivity. apply IH.
Qed.

(** X18: the exported sheet.  When the thresholds are pairwise distinct
    integers that a double holds exactly, the files that exist are sound
    and the output path is not a directory, the script builds its data
    frame without a length mismatch.  If the directory of the output path
    exists it then writes, at the output path, a sheet with a header row
    and one row per run: the header has the five fixed columns followed
    by one ["Events above t"] column per threshold, in the order of
    [thresholds]; the row of run [i] has its two-digit number, four blank
    cells, and for each threshold the number of samples of its channel A
    strictly above the threshold converted to float32; the last line
    printed names the output path.  If the directory of the output path
    does not exist, [to_excel] raises [OSError] after the sweep has
    printed its lines: no file is written and the last line is not
    printed. *)
Theorem export_writes_event_table (excel_output_path : string) :
  NoDup thresholds ->
  Forall (fun t => (Z.abs t <= 2 ^ 53)%Z) thresholds ->
  sound_runs ->
  fs !! excel_output_path <> Some Dir ->
  exists out : list string,
    (parent_is_dir fs excel_output_path = true ->
     ExportScript.export float_of_string np_float32 fs path_A number_of_files
       exptitle expnum thresholds excel_output_path
     = (out ++ ["Data successfully exported to " +:+ excel_output_path],
        inr (<[excel_output_path :=
                 File
                   ((["Datafile"; "Contents"; "Conc"; "Incub"; "Flow"]
                     ++ List.map (fun t => "Events above " +:+ str_int t) thresholds)
                    :: List.map
                         (fun i =>
                            [fmt_02d (S i); ""; ""; ""; ""]
                            ++ List.map
                                 (fun t =>
                                    str_int
                                      (Z.of_nat
                                         (strictly_greater_count
                                            (channel_A (exptitle +:+ fmt_02d (S i)))
                                            (Float32.to_float32 (of_Z t)))))
                                 thresholds)
                         (seq 0 expnum))]> fs)))
    /\ (parent_is_dir fs excel_output_path = false ->
        exists text : string,
          ExportScript.export float_of_string np_float32 fs path_A number_of_files
            exptitle expnum thresholds excel_output_path
          = (out, inl (Raised (OSError text)))).
Proof.
  intros Hnd _ Hsound Hfile.
  destruct (events_dict_after_sweep_aux Hnd Hsound) as [out [d [E [Hin _]]]].
  exists out. unfold ExportScript.export. rewrite E.
  rewrite (add_event_columns_ok d events_column thresholds (fixed_columns expnum) Hnd);
    [| intros t Ht; apply Hin, Ht | intros t _; apply event_key_not_fixed].
  assert (Hlen : forall t, List.length (events_column t) = expnum).
  { intros t. unfold ExportScript.events_column, ExportScript.file_stems.
    now rewrite !List.length_map, List.length_seq. }
  assert (Hdf : DataFrame
                  (fixed_columns expnum
                   ++ List.map
                        (fun t => ("Events above " +:+ str_int t,
                                   List.map Number (events_column t)))
                        thresholds)
                = inr (fixed_columns expnum
                       ++ List.map
                            (fun t => ("Events above " +:+ str_int t,
                                       List.map Number (events_column t)))
                            thresholds)).
  { unfold DataFrame, fixed_columns. cbn [app].
    match goal with |- (if ?c then _ else _) = _ => assert (Hc : c = true) end.
    { apply forallb_forall. intros [k c] Hkc. apply Nat.eqb_eq.
      rewrite List.length_map, List.length_seq. cbn [snd].
      cbn [In] in Hkc.
      destruct Hkc as [H|[H|[H|[H|Hkc]]]];
        try (injection H as _ <-; apply repeat_length).
      apply List.in_map_iff in Hkc as [t [H _]]. injection H as _ <-.
      now rewrite List.length_map. }
    now rewrite Hc. }
  rewrite Hdf. split.
  - intros Hdir. rewrite (to_excel_writes _ _ _ Hdir Hfile).
    do 4 f_equal.
    unfold sheet_of, fixed_columns. cbn [app]. f_equal.
    + cbn [List.map fst]. do 5 f_equal. rewrite List.map_map. reflexivity.
    + cbn [snd]. rewrite List.length_map, List.length_seq.
      apply List.map_ext_in. intros i Hi. apply in_seq in Hi.
      cbn [List.map snd]. rewrite nth_map_seq by lia. rewrite !nth_repeat_blank.
      cbn [render app]. replace (1 + i) with (S i) by lia. do 5 f_equal.
      rewrite List.map_map. apply List.map_ext. intros t. cbn [snd].
      unfold ExportScript.events_column, ExportScript.file_stems.
      rewrite !List.map_map, nth_map_seq by lia. cbn [render].
      f_equal. apply count_events_spec.
  - intros Hdir.
    destruct (to_excel_no_directory fs excel_output_path
                (sheet_of (fixed_columns expnum
                           ++ List.map
                                (fun t => ("Events above " +:+ str_int t,
                                           List.map Number (events_column t)))
                                thresholds)) Hdir) as [text ->].
    now exists text.
Qed.

End ExportFacts.

Section ExportExamples.
Import Float Py Loader Threshold Naming ExportScript.

Lemma sweep_fs_sound :
  sound_runs float_of_digits sweep_fs "data" 1 "run" 1.
Proof.
  intros stem i rows Hstem Hi E.
  destruct Hstem as [<-|[]]. destruct i as [|i]; [|lia].
  vm_compute in E. injection E as <-.
  repeat constructor; eexists; reflexivity.
Qed.

Lemma events_dict_after_sweep_witness :
  exists (out : list string) (events_dict : gmap Z (list Z)),
    file_stem_loop float_of_digits (fun v => v) sweep_fs "data" 1 [5; 20]%Z
      (file_stems "run" 1) (events_dict_init [5; 20]%Z) []
    = (out, inr events_dict)
    /\ events_dict !! 5%Z = Some [2%Z]
    /\ events_dict !! 20%Z = Some [1%Z].
Proof.
  destruct (events_dict_after_sweep float_of_digits (fun v => v) sweep_fs
              "data" 1 "run" 1 [5; 20]%Z) as [out [d [E [Hin _]]]].
  - apply NoDup_ListNoDup. repeat constructor; simpl; intuition lia.
  - repeat constructor; vm_compute; discriminate.
  - exact sweep_fs_sound.
  - exists out, d. split; [exact E|]. split.
    + destruct (Hin 5%Z) as [H _]; [repeat constructor|]. rewrite H. reflexivity.
    + destruct (Hin 20%Z) as [H _]; [repeat constructor|]. rewrite H. reflexivity.
Defined.

Lemma export_writes_event_table_witness :
  exists out : list string,
    export float_of_digits (fun v => v) sweep_fs "data" 1 "run" 1 [5; 20]%Z "out.xlsx"
    = (out ++ ["Data successfully exported to out.xlsx"],
       inr (<["out.xlsx" :=
                File [ ["Datafile"; "Contents"; "Conc"; "Incub"; "Flow";
                        "Events above 5"; "Events above 20"];
                       ["01"; ""; ""; ""; ""; "2"; "1"] ]]> sweep_fs)).
Proof.
  destruct (export_writes_event_table float_of_digits (fun v => v) sweep_fs
              "data" 1 "run" 1 [5; 20]%Z "out.xlsx") as [out [E _]].
  - apply NoDup_ListNoDup. repeat constructor; simpl; intuition lia.
  - repeat constructor; vm_compute; discriminate.
  - exact sweep_fs_sound.
  - vm_compute. discriminate.
  - exists out. rewrite (E eq_refl). reflexivity.
Defined.

End ExportExamples.

(** ** Counting over concatenated traces and at the special thresholds *)

Section CountFacts.
Import Float Threshold.

Lemma strictly_greater_count_app (a b : list float) (t : float) :
  strictly_greater_count (a ++ b) t
  = (strictly_greater_count a t + strictly_greater_count b t)%nat.
Proof.
  induction a as [|x a IH]; simpl; [reflexivity|].
  destruct (gt x t); simpl; now rewrite IH.
Qed.

Lemma strictly_greater_count_le_length (a : list float) (t : float) :
  (strictly_greater_count a t <= List.length a)%nat.
Proof.
  induction a as [|x a IH]; simpl; [lia|]. destruct (gt x t); lia.
Qed.

(** X19: the count of a concatenation is the sum of the counts of its
    parts (the events of a run are the events of its files added up), and
    a count is never negative and never exceeds the number of samples. *)
Theorem count_events_above_threshold_additive (a b : list float) (t : float) :
  count_events_above_threshold (a ++ b) t
  = (count_events_above_threshold a t + count_events_above_threshold b t)%Z
  /\ (0 <= count_events_above_threshold a t <= Z.of_nat (List.length a))%Z.
Proof.
  rewrite !count_events_spec, strictly_greater_count_app.
  pose proof (strictly_greater_count_le_length a (Float32.to_float32 t)). lia.
Qed.

Lemma strictly_greater_count_none (a : list float) (t : float) :
  (forall x, gt x t = false) -> strictly_greater_count a t = 0%nat.
Proof.
  intros H. induction a as [|x a IH]; simpl; [reflexivity|]. now rewrite H.
Qed.

(** X20: the special thresholds.  With a NaN or a [+inf] threshold no
    sample is an event, whatever the array; with a [-inf] threshold a
    sample is an event unless it is NaN or [-inf] itself. *)
Theorem count_events_above_threshold_special (a : list float) :
  count_events_above_threshold a NaN = 0%Z
  /\ count_events_above_threshold a PosInf = 0%Z
  /\ count_events_above_threshold a NegInf
     = Z.of_nat (List.length
                   (List.filter (fun x => match x with
                                          | NaN | NegInf => false
                                          | _ => true
                                          end) a)).
Proof.
  rewrite !count_events_spec.
  change (Float32.to_float32 NaN) with NaN.
  change (Float32.to_float32 PosInf) with PosInf.
  change (Float32.to_float32 NegInf) with NegInf.
  split; [|split].
  - rewrite strictly_greater_count_none; [reflexivity|]. now intros [| |q|].
  - rewrite strictly_greater_count_none; [reflexivity|]. now intros [| |q|].
  - rewrite strictly_greater_count_filter.
    erewrite List.filter_ext; [reflexivity|]. now intros [| |q|].
Qed.

End CountFacts.

(** ** The data files of different runs *)

Section RunFiles.
Import Py Loader ExportScript.

Lemma uint_of_string_underscore (s t : string) :
  NilEmpty.uint_of_string (s +:+ String "_" t) = None.
Proof.
  induction s as [|c s IH].
  - change (DecimalString.uint_of_char "_" (NilEmpty.uint_of_string t) = None).
    now destruct (NilEmpty.uint_of_string t).
  - change (DecimalString.uint_of_char c (NilEmpty.uint_of_string (s +:+ String "_" t))
            = None).
    rewrite IH. reflexivity.
Qed.

Lemma uint_of_string_tail (c : ascii) (s : string) :
  NilEmpty.uint_of_string (String c s) <> None ->
  NilEmpty.uint_of_string s <> None.
Proof.
  change (NilEmpty.uint_of_string (String c s))
    with (DecimalString.uint_of_char c (NilEmpty.uint_of_string s)).
  destruct (NilEmpty.uint_of_string s); [discriminate | intros H; now apply H].
Qed.

Lemma fmt_02d_digits (a : nat) : NilEmpty.uint_of_string (fmt_02d a) <> None.
Proof.
  unfold fmt_02d, str. destruct (_ <? 2)%nat.
  - change (DecimalString.uint_of_char "0"
              (NilEmpty.uint_of_string (NilEmpty.string_of_uint (Nat.to_uint a)))
            <> None).
    rewrite NilEmpty.usu. discriminate.
  - rewrite NilEmpty.usu. discriminate.
Qed.

(** Two digit strings followed by an underscore and a tail agree only if
    they are the same digits and the same tail. *)
Lemma digits_underscore_split (s1 s2 t1 t2 : string) :
  NilEmpty.uint_of_string s1 <> None -> NilEmpty.uint_of_string s2 <> None ->
  s1 +:+ String "_" t1 = s2 +:+ String "_" t2 -> s1 = s2 /\ t1 = t2.
Proof.
  revert s2. induction s1 as [|c s1 IH]; intros [|c' s2] H1 H2 E.
  - injection E as E. now split.
  - injection E as <- _. exfalso. apply H2.
    change (DecimalString.uint_of_char "_" (NilEmpty.uint_of_string s2) = None).
    now destruct (NilEmpty.uint_of_string s2).
  - injection E as -> _. exfalso. apply H1.
    change (DecimalString.uint_of_char "_" (NilEmpty.uint_of_string s1) = None).
    now destruct (NilEmpty.uint_of_string s1).
  - injection E as -> E.
    destruct (IH s2 (uint_of_string_tail _ _ H1) (uint_of_string_tail _ _ H2) E)
      as [-> ->].
    now split.
Qed.

Lemma fmt_02d_not_sep (a : nat) (t : string) :
  starts_with_sep (fmt_02d a +:+ t) = false.
Proof.
  pose proof (fmt_02d_digits a) as H.
  assert (Hlen : fmt_02d a <> "").
  { unfold fmt_02d. destruct (String.length (str a) <? 2)%nat eqn:L; [discriminate|].
    intros E. rewrite E in L. discriminate L. }
  destruct (fmt_02d a) as [|c s]; [congruence|].
  change (Ascii.eqb c sep = false).
  destruct (Ascii.eqb_spec c sep) as [->|_]; [|reflexivity].
  exfalso. apply H.
  change (DecimalString.uint_of_char "/" (NilEmpty.uint_of_string s) = None).
  now destruct (NilEmpty.uint_of_string s).
Qed.

Lemma starts_with_sep_run (exptitle : string) (a b : nat) (t u : string) :
  starts_with_sep (exptitle +:+ fmt_02d a +:+ t)
  = starts_with_sep (exptitle +:+ fmt_02d b +:+ u).
Proof.
  destruct exptitle as [|c e]; [|reflexivity].
  change (starts_with_sep (fmt_02d a +:+ t) = starts_with_sep (fmt_02d b +:+ u)).
  now rewrite !fmt_02d_not_sep.
Qed.

Lemma run_filename_inj (path_A exptitle : string) (a b i j : nat) :
  data_filename path_A (exptitle +:+ fmt_02d a) i
  = data_filename path_A (exptitle +:+ fmt_02d b) j ->
  a = b /\ i = j.
Proof.
  unfold data_filename.
  destruct (Nat.ltb_spec 0 i) as [Hi|Hi], (Nat.ltb_spec 0 j) as [Hj|Hj]; intros E.
  - rewrite !string_append_assoc in E.
    apply os_path_join_cancel in E; [|apply starts_with_sep_run].
    apply append_cancel_l in E.
    apply digits_underscore_split in E as [Ea Ei]; try apply fmt_02d_digits.
    apply fmt_02d_inj in Ea, Ei. lia.
  - exfalso. rewrite string_append_assoc in E.
    rewrite <- (string_append_nil_r (fmt_02d b)) in E.
    apply os_path_join_cancel in E; [|apply starts_with_sep_run].
    apply append_cancel_l in E. rewrite string_append_nil_r in E.
    apply (fmt_02d_digits b). rewrite <- E. apply uint_of_string_underscore.
  - exfalso. rewrite string_append_assoc in E.
    rewrite <- (string_append_nil_r (fmt_02d a)) in E.
    apply os_path_join_cancel in E; [|apply starts_with_sep_run].
    apply append_cancel_l in E. rewrite string_append_nil_r in E.
    apply (fmt_02d_digits a). rewrite E. apply uint_of_string_underscore.
  - rewrite <- (string_append_nil_r (fmt_02d a)) in E.
    rewrite <- (string_append_nil_r (fmt_02d b)) in E.
    apply os_path_join_cancel in E; [|apply starts_with_sep_run].
    apply append_cancel_l in E. rewrite !string_append_nil_r in E.
    apply fmt_02d_inj in E. lia.
Qed.

(** X21: no data file belongs to two runs or to two positions of a run:
    for run numbers [a], [b] and positions [i], [j], the file names built
    from the stems [f"{exptitle}{a:02d}"] and [f"{exptitle}{b:02d}"]
    differ as soon as the runs or the positions differ, whatever the
    directory and the experiment title. *)
Theorem run_filenames_distinct (path_A exptitle : string) (a b i j : nat) :
  a <> b \/ i <> j ->
  data_filename path_A (exptitle +:+ fmt_02d a) i
  <> data_filename path_A (exptitle +:+ fmt_02d b) j.
Proof.
  intros Hne E. apply run_filename_inj in E. lia.
Qed.

Lemma run_filenames_distinct_witness :
  data_filename "data" ("769_" +:+ fmt_02d 1) 1
  <> data_filename "data" ("769_" +:+ fmt_02d 10) 0.
Proof.
  apply (run_filenames_distinct "data" "769_" 1 10 1 0). left. lia.
Defined.

End RunFiles.
